(** * codex-lab: the blog pipeline and its rule-based post generator

    A shallow embedding of
      - [generation/blog_post_generator.py]  (class [BlogPostGenerator]),
      - [orchestration/blog_pipeline.py]     (class [BlogPipeline]),
      - [ingestion/html_parser.py]           (function [parse_html]),
    and the properties the specification states about them.

    Python [str] values are sequences of Unicode code points; they are
    modelled as [list N], so that [len], [strip] and [split] count and
    classify code points exactly as the interpreter does.  String
    literals of the source are written as UTF-8 text and decoded once. *)

From Stdlib Require Import ZArith NArith List String Ascii Lia Bool.
From stdpp Require Import base option list gmap.
Import ListNotations.

Abbreviation char := N (only parsing).
Abbreviation str := (list N) (only parsing).

(** ** Text primitives of the interpreter *)

Module PyStr.

(** UTF-8 decoding of a literal: [need] continuation bytes are still
    expected and [acc] holds the bits read so far. *)
Fixpoint utf8_decode (need : nat) (acc : N) (bs : list N) : str :=
  match bs with
  | [] => []
  | b :: r =>
      match need with
      | O =>
          if (b <? 128)%N then b :: utf8_decode 0 0 r
          else if (b <? 224)%N then utf8_decode 1 (b - 192) r
          else if (b <? 240)%N then utf8_decode 2 (b - 224) r
          else utf8_decode 3 (b - 240) r
      | S O => (acc * 64 + (b - 128))%N :: utf8_decode 0 0 r
      | S n => utf8_decode n (acc * 64 + (b - 128))%N r
      end
  end.

Definition lit (s : string) : str :=
  utf8_decode 0 0 (map (fun b => N.of_nat (nat_of_ascii b)) (list_ascii_of_string s)).

Definition LF : char := 10%N.
Definition SPACE : char := 32%N.
Definition QUOTE : char := 39%N.
Definition DQUOTE : char := 34%N.

(** [Py_UNICODE_ISSPACE]: the code points that [str.split()] and
    [str.strip()] treat as whitespace. *)
Definition is_space (c : char) : bool :=
  ((9 <=? c) && (c <=? 13) || (28 <=? c) && (c <=? 32)
   || (c =? 133) || (c =? 160) || (c =? 5760)
   || (8192 <=? c) && (c <=? 8202)
   || (c =? 8232) || (c =? 8233) || (c =? 8239) || (c =? 8287)
   || (c =? 12288))%N.

(** Truthiness of a string: [if s:] / [s or default]. *)
Definition truthy (s : str) : bool :=
  match s with [] => false | _ :: _ => true end.

Definition py_or (s d : str) : str := if truthy s then s else d.

(** [s.lstrip()], [s.rstrip()], [s.strip()]. *)
Fixpoint lstrip (s : str) : str :=
  match s with
  | [] => []
  | c :: r => if is_space c then lstrip r else s
  end.

Fixpoint rstrip (s : str) : str :=
  match s with
  | [] => []
  | c :: r =>
      match rstrip r with
      | [] => if is_space c then [] else [c]
      | r' => c :: r'
      end
  end.

Definition strip (s : str) : str := rstrip (lstrip s).

(** [s.split()]: the string is scanned once; [cur] is the token being
    collected, in reverse. Runs of whitespace separate tokens and no
    empty token is produced. *)
Fixpoint split_go (cur : str) (s : str) : list str :=
  match s with
  | [] => match cur with [] => [] | _ => [rev cur] end
  | c :: r =>
      if is_space c then
        match cur with
        | [] => split_go [] r
        | _ => rev cur :: split_go [] r
        end
      else split_go (c :: cur) r
  end.

Definition split (s : str) : list str := split_go [] s.

(** [sep.join(parts)]. *)
Fixpoint join {A} (sep : list A) (parts : list (list A)) : list A :=
  match parts with
  | [] => []
  | p :: rest =>
      match rest with
      | [] => p
      | _ => p ++ sep ++ join sep rest
      end
  end.

(** [text.replace(ch, " ")] for a one-character [ch]. *)
Definition replace_char (ch : char) (text : str) : str :=
  map (fun c => if (c =? ch)%N then SPACE else c) text.

(** Slices [l[start:stop]] with Python's treatment of negative and
    out-of-range bounds. *)
Definition clamp_index (len i : Z) : Z :=
  if (i <? 0)%Z then Z.max 0 (len + i) else Z.min i len.

Definition py_slice {A} (l : list A) (start stop : Z) : list A :=
  let n := Z.of_nat (length l) in
  let a := clamp_index n start in
  let b := clamp_index n stop in
  take (Z.to_nat (b - a)) (drop (Z.to_nat a) l).

(** The lines of a text, separated by line feeds. *)
Fixpoint lines (s : str) : list str :=
  match s with
  | [] => [[]]
  | c :: r =>
      if (c =? LF)%N then [] :: lines r
      else match lines r with
           | l :: ls => (c :: l) :: ls
           | [] => [[c]]
           end
  end.

Fixpoint starts_with (p s : str) : bool :=
  match p, s with
  | [], _ => true
  | _ :: _, [] => false
  | a :: p', b :: s' => (a =? b)%N && starts_with p' s'
  end.

(** [pat in s]: some suffix of [s] starts with [pat]. *)
Fixpoint contains (pat s : str) : bool :=
  starts_with pat s ||
  match s with
  | [] => false
  | _ :: r => contains pat r
  end.

Definition has_char (c : char) (s : str) : bool :=
  existsb (fun x => (x =? c)%N) s.

(** [a == b] on strings. *)
Fixpoint str_eqb (a b : str) : bool :=
  match a, b with
  | [], [] => true
  | x :: a', y :: b' => (x =? y)%N && str_eqb a' b'
  | _, _ => false
  end.

End PyStr.

Import PyStr.

(** ** generation/blog_post_generator.py *)

Record CommentSummary := mkCommentSummary {
  highlights : list str;
  pain_points : list str;
  wishes : list str;
  tone : option str
}.

(** [CommentSummary()] with the dataclass defaults. *)
Definition empty_summary : CommentSummary :=
  {| highlights := []; pain_points := []; wishes := []; tone := None |}.

(** [tone or default] for [tone : str | None]. *)
Definition tone_or (t : option str) (d : str) : str :=
  match t with
  | Some s => py_or s d
  | None => d
  end.

Module Lit.
Definition sec_intro : str := Eval vm_compute in lit "서론".
Definition sec_problem : str := Eval vm_compute in lit "문제 제기".
Definition sec_info : str := Eval vm_compute in lit "정보 제공".
Definition sec_wrap : str := Eval vm_compute in lit "정리".

Definition nl : str := [LF].
Definition nlnl : str := [LF; LF].
Definition comma_sp : str := Eval vm_compute in lit ", ".
Definition wa_sp : str := Eval vm_compute in lit "와 ".
Definition h1 : str := Eval vm_compute in lit "# ".
Definition h2 : str := Eval vm_compute in lit "## ".
Definition h3 : str := Eval vm_compute in lit "### ".

Definition ph_seo : str := Eval vm_compute in lit "핵심 포인트".
Definition ph_keyword : str := Eval vm_compute in lit "핵심 키워드".
Definition ph_tone_hint : str := Eval vm_compute in lit "독자 의견".
Definition ph_highlights : str := Eval vm_compute in lit "주목 받은 의견".
Definition ph_pain_points : str := Eval vm_compute in lit "해결이 필요한 문제".
Definition ph_wishes : str := Eval vm_compute in lit "독자가 바라는 방향".
Definition ph_tone : str := Eval vm_compute in lit "긍정적".

Definition outline_kw : str := Eval vm_compute in lit "- 주제 키워드: ".
Definition outline_structure : str :=
  Eval vm_compute in lit "- 구성: 서론 → 문제 제기 → 정보 제공 → 정리".

Definition sub_intro : str := Eval vm_compute in lit "를 살펴보기 위한 첫걸음".
Definition sub_problem : str := Eval vm_compute in lit " 속에서 드러난 고민".
Definition sub_info : str := Eval vm_compute in lit "핵심 정보와 적용 팁".
Definition sub_wrap : str := Eval vm_compute in lit "정리하며 살펴볼 핵심 포인트".

Definition p_intro_a : str := Eval vm_compute in lit "읽기 쉬운 흐름으로 시작합니다. ".
Definition p_intro_b : str :=
  Eval vm_compute in
    lit "를 자연스럽게 녹여 주제를 소개하고, 독자가 궁금해할 질문을 던집니다.".
Definition p_problem_a : str := Eval vm_compute in lit "댓글에서 특히 언급된 '".
Definition p_problem_b : str := Eval vm_compute in lit "'를 토대로 문제를 정리합니다. ".
Definition p_problem_c : str :=
  Eval vm_compute in lit "를 과도하지 않게 배치해 공감대를 형성합니다.".
Definition p_info_a : str := Eval vm_compute in lit "실제 독자가 강조한 '".
Definition p_info_b : str := Eval vm_compute in lit "'와 바라는 '".
Definition p_info_c : str :=
  Eval vm_compute in lit "'를 중심으로 정보와 사례를 제시합니다. ".
Definition p_info_d : str :=
  Eval vm_compute in lit "는 활용 팁과 함께 배치해 검색 가독성을 높입니다.".
Definition p_wrap_a : str := Eval vm_compute in lit "앞서 다룬 내용을 간결하게 요약하며 ".
Definition p_wrap_b : str :=
  Eval vm_compute in
    lit "를 다시 한 번 짚습니다. 독자가 바로 적용할 수 있는 다음 행동을 안내하고 톤을 '".
Definition p_wrap_c : str := Eval vm_compute in lit "'으로 유지합니다.".
End Lit.

Record BlogPostGenerator := mkGenerator { keywords_per_section : Z }.

(** [BlogPostGenerator()] *)
Definition default_generator : BlogPostGenerator := {| keywords_per_section := 2 |}.

Definition section_order : list str :=
  [Lit.sec_intro; Lit.sec_problem; Lit.sec_info; Lit.sec_wrap].

(** The local [seo_hint] of [_build_outline]. *)
Definition seo_hint (keywords : list str) : str :=
  match keywords with
  | [] => Lit.ph_seo
  | _ => join Lit.comma_sp (take 3 keywords)
  end.

Definition _build_outline (title : str) (keywords : list str) : list str :=
  [ Lit.h1 ++ title;
    Lit.outline_kw ++ seo_hint keywords;
    Lit.outline_structure ].

Definition _build_subheading (section_name title : str) (cs : CommentSummary) : str :=
  let tone_hint := tone_or (tone cs) Lit.ph_tone_hint in
  if str_eqb section_name Lit.sec_intro then title ++ Lit.sub_intro
  else if str_eqb section_name Lit.sec_problem then tone_hint ++ Lit.sub_problem
  else if str_eqb section_name Lit.sec_info then Lit.sub_info
  else Lit.sub_wrap.

Definition _scatter_keywords (g : BlogPostGenerator) (keywords : list str) : str :=
  match keywords with
  | [] => Lit.ph_keyword
  | _ => join Lit.wa_sp (py_slice keywords 0 (keywords_per_section g))
  end.

Definition _build_paragraph (g : BlogPostGenerator)
    (section_name : str) (keywords : list str) (cs : CommentSummary) : str :=
  let keyword_text := _scatter_keywords g keywords in
  let highlights := py_or (join Lit.comma_sp (take 2 (highlights cs))) Lit.ph_highlights in
  let pain_points := py_or (join Lit.comma_sp (take 2 (pain_points cs))) Lit.ph_pain_points in
  let wishes := py_or (join Lit.comma_sp (take 2 (wishes cs))) Lit.ph_wishes in
  if str_eqb section_name Lit.sec_intro then
    Lit.p_intro_a ++ keyword_text ++ Lit.p_intro_b
  else if str_eqb section_name Lit.sec_problem then
    Lit.p_problem_a ++ pain_points ++ Lit.p_problem_b ++ keyword_text ++ Lit.p_problem_c
  else if str_eqb section_name Lit.sec_info then
    Lit.p_info_a ++ highlights ++ Lit.p_info_b ++ wishes ++ Lit.p_info_c
      ++ keyword_text ++ Lit.p_info_d
  else
    Lit.p_wrap_a ++ keyword_text ++ Lit.p_wrap_b
      ++ tone_or (tone cs) Lit.ph_tone ++ Lit.p_wrap_c.

Definition _build_section (g : BlogPostGenerator)
    (section_name title : str) (keywords : list str) (cs : CommentSummary) : str :=
  let heading := Lit.h2 ++ section_name in
  let subheading := _build_subheading section_name title cs in
  let paragraph := _build_paragraph g section_name keywords cs in
  join Lit.nl [heading; Lit.h3 ++ subheading; paragraph].

Definition _keywords_for_section (g : BlogPostGenerator)
    (keywords : list str) (section_index : Z) : list str :=
  let start := (section_index * keywords_per_section g)%Z in
  let stop := (start + keywords_per_section g)%Z in
  match py_slice keywords start stop with
  | [] => py_slice keywords 0 (keywords_per_section g)
  | chunk => chunk
  end.

(** [[kw.strip() for kw in keywords if kw.strip()]] *)
Definition clean_keywords (keywords : list str) : list str :=
  map strip (filter (fun kw => truthy (strip kw) = true) keywords).

Definition generate (g : BlogPostGenerator)
    (title : str) (keywords : list str) (cs : CommentSummary) : str :=
  let keywords := clean_keywords keywords in
  let outline := _build_outline title keywords in
  let sections :=
    imap (fun idx section_name =>
            let assigned_keywords := _keywords_for_section g keywords (Z.of_nat idx) in
            _build_section g section_name title assigned_keywords cs)
         section_order in
  join Lit.nlnl (outline ++ sections).

(** ** ingestion/html_parser.py and orchestration/blog_pipeline.py *)

Record ParsedPage := mkParsedPage {
  title : option str;
  meta_description : option str;
  body_text : str
}.

Record PipelineInput := mkPipelineInput {
  url : option str;
  html : option str;
  youtube_video_id : option str;
  comments : option (list str)
}.

Record PipelineOutput := mkPipelineOutput {
  parsed : ParsedPage;
  comment_summary : CommentSummary;
  out_title : str;
  blog_post : str
}.

(** What [BeautifulSoup(html, "html.parser")] exposes to [parse_html]:
    [soup.title] and its [.string], the [content] attribute of the
    description [meta] tag, and the text [_clean_body_text] extracts. *)
Record Soup := mkSoup {
  soup_title : option (option str);
  soup_meta : option (option str);
  soup_body_text : str
}.

(** Values a comment analyzer can hand back inside a [dict], as far as
    the embedding follows them: [None], an integer, a string, a list
    of strings.  A list with entries of another type, which [list()]
    copies as it does any list, has no form here. *)
Inductive PyVal :=
| VNone
| VInt (z : Z)
| VStr (s : str)
| VList (l : list str).

(** The result of [CommentAnalyzer.summarize]: a [CommentSummary], a
    [dict], or some other object. *)
Inductive Analyzed :=
| ASummary (cs : CommentSummary)
| ADict (d : gmap (list N) PyVal)
| AOther (v : PyVal).

(** The keyword arguments of one [TitleGenerator.generate] call;
    [arg_body_text = None] when [body_text] is not passed. *)
Record TitleCall := mkTitleCall {
  arg_base_title : str;
  arg_meta_description : str;
  arg_highlights : list str;
  arg_pain_points : list str;
  arg_wishes : list str;
  arg_body_text : option str
}.

(** The exceptions of a run: [ValueError] (the specification's
    InvalidInput), [TypeError] (TypeMismatch), the exceptions of
    [requests] (FetchFailure) and the one [BeautifulSoup] raises on
    markup its parser rejects.  [OutsideAnnotation] marks a value that
    the field annotations of [CommentSummary] exclude, see [as_tone]. *)
Inductive PyError :=
| ValueError
| TypeError
| RequestException
| ParserRejectedMarkup
| OutsideAnnotation.

(** Calls that leave the controller. *)
Inductive Event :=
| EParseHtml (source : str)
| EFetch (url : str)
| ESummarize (comments : list str)
| ETitle (call : TitleCall).

(** The collaborators whose code is outside the repository's core:
    [urlparse], [requests], [BeautifulSoup], [CommentAnalyzer] and
    [TitleGenerator].  [urlparse], the request and the parser either
    raise or return. *)
Class Collaborators := {
  _is_url : str -> PyError + bool;
  http_get : str -> PyError + str;
  make_soup : str -> PyError + Soup;
  summarize : list str -> Analyzed;
  title_generate : TitleCall -> str
}.

(** A computation logs the calls it makes and either raises or returns. *)
Definition M (A : Type) : Type := (list Event * (PyError + A))%type.

#[global] Instance M_ret : MRet M := fun A a => ([], inr a).
#[global] Instance M_bind : MBind M := fun A B f m =>
  match m with
  | (t1, inl e) => (t1, inl e)
  | (t1, inr a) => let '(t2, r) := f a in (t1 ++ t2, r)
  end.

Definition raise {A} (e : PyError) : M A := ([], inl e).
Definition emit (e : Event) : M unit := ([e], inr tt).
Definition lift {A} (r : PyError + A) : M A := ([], r).
Definition trace {A} (m : M A) : list Event := fst m.
Definition outcome {A} (m : M A) : PyError + A := snd m.

Definition opt_truthy (o : option str) : bool :=
  match o with Some s => truthy s | None => false end.

Definition opt_str (o : option str) : str := default [] o.

Module Key.
Definition highlights : str := Eval vm_compute in lit "highlights".
Definition pain_points : str := Eval vm_compute in lit "pain_points".
Definition wishes : str := Eval vm_compute in lit "wishes".
Definition tone : str := Eval vm_compute in lit "tone".
End Key.

(** [list(x)] *)
Definition py_list (v : PyVal) : PyError + list str :=
  match v with
  | VList l => inr l
  | VStr s => inr (map (fun c => [c]) s)
  | VNone | VInt _ => inl TypeError
  end.

(** A value stored in the field [tone: str | None].  The code stores
    [analyzed.get("tone", None)] as it is, whatever its type.  The
    embedding follows it for the values of the annotation; for an
    integer or a list it stops with [OutsideAnnotation], which stands
    for no exception of the code.  What is stated of [dict] answers
    is stated for tones of the annotation. *)
Definition as_tone (v : PyVal) : PyError + option str :=
  match v with
  | VNone => inr None
  | VStr s => inr (Some s)
  | VInt _ | VList _ => inl OutsideAnnotation
  end.

Section Pipeline.
Context `{C : Collaborators}.

Definition _fetch_html (u : str) : M str :=
  _ ← emit (EFetch u); lift (http_get u).

Definition _extract_meta_description (soup : Soup) : option str :=
  match soup_meta soup with
  | Some (Some content) => if truthy content then Some (strip content) else None
  | _ => None
  end.

(** The page [parse_html] builds from the parsed markup. *)
Definition page_of_soup (soup : Soup) : ParsedPage :=
  let title :=
    match soup_title soup with
    | Some (Some s) => if truthy s then Some (strip s) else None
    | _ => None
    end in
  let meta_description := _extract_meta_description soup in
  let body_text := soup_body_text soup in
  {| title := title; meta_description := meta_description; body_text := body_text |}.

Definition parse_html (source : str) : M ParsedPage :=
  if negb (truthy source) || negb (truthy (strip source)) then raise ValueError
  else
    is_url ← lift (_is_url source);
    html ← (if (is_url : bool) then _fetch_html source else mret source);
    soup ← lift (make_soup html);
    mret (page_of_soup soup).

Definition _analyze_comments (comments : list str) : M CommentSummary :=
  match comments with
  | [] => mret {| highlights := []; pain_points := []; wishes := []; tone := None |}
  | _ =>
      _ ← emit (ESummarize comments);
      match summarize comments with
      | ASummary cs => mret cs
      | ADict d =>
          hs ← lift (py_list (default (VList []) (d !! Key.highlights)));
          ps ← lift (py_list (default (VList []) (d !! Key.pain_points)));
          ws ← lift (py_list (default (VList []) (d !! Key.wishes)));
          t ← lift (as_tone (default VNone (d !! Key.tone)));
          mret {| highlights := hs; pain_points := ps; wishes := ws; tone := t |}
      | AOther _ => raise TypeError
      end
  end.

Definition call_title (c : TitleCall) : M str :=
  _ ← emit (ETitle c); mret (title_generate c).

Definition _generate_title (parsed_page : ParsedPage) (cs : CommentSummary) : M str :=
  let base_title := strip (opt_str (title parsed_page)) in
  if truthy base_title then
    call_title {| arg_base_title := base_title;
                  arg_meta_description := opt_str (meta_description parsed_page);
                  arg_highlights := highlights cs;
                  arg_pain_points := pain_points cs;
                  arg_wishes := wishes cs;
                  arg_body_text := None |}
  else
    call_title {| arg_base_title := [];
                  arg_meta_description := opt_str (meta_description parsed_page);
                  arg_highlights := highlights cs;
                  arg_pain_points := pain_points cs;
                  arg_wishes := wishes cs;
                  arg_body_text := Some (body_text parsed_page) |}.

End Pipeline.

(** The punctuation [_tokenize_ko_simple] blanks out, in source order:
    , . : ; ! ? ( ) [ ] { } and the two quote characters. *)
Definition punctuation : list char :=
  [44; 46; 58; 59; 33; 63; 40; 41; 91; 93; 123; 125; DQUOTE; QUOTE]%N.

Definition _tokenize_ko_simple (text : str) : list str :=
  let text := fold_left (fun t ch => replace_char ch t) punctuation text in
  filter (fun t => truthy t = true) (split text).

(** The de-duplication loop of [_derive_keywords]: [seen] is the set of
    accepted seeds and [out] the list built so far. *)
Fixpoint dedup_loop (seeds : list str) (seen : gset (list N)) (out : list str) : list str :=
  match seeds with
  | [] => out
  | s :: rest =>
      let s := strip s in
      if negb (truthy s) || (length s <? 2)%nat then dedup_loop rest seen out
      else if decide (s ∈ seen) then dedup_loop rest seen out
      else dedup_loop rest ({[ s ]} ∪ seen) (out ++ [s])
  end.

Definition _derive_keywords (parsed_page : ParsedPage) (title : str) : list str :=
  let seeds1 := if truthy title then _tokenize_ko_simple title else [] in
  let seeds2 :=
    if opt_truthy (meta_description parsed_page)
    then _tokenize_ko_simple (opt_str (meta_description parsed_page)) else [] in
  let seeds := seeds1 ++ seeds2 in
  take 12 (dedup_loop seeds ∅ []).

(** [source = inp.url if inp.url else inp.html] *)
Definition source_of (inp : PipelineInput) : str :=
  if opt_truthy (url inp) then opt_str (url inp) else opt_str (html inp).

Section Run.
Context `{C : Collaborators}.

Definition run (inp : PipelineInput) : M PipelineOutput :=
  if negb (opt_truthy (url inp)) && negb (opt_truthy (html inp)) then raise ValueError
  else
    let source := source_of inp in
    _ ← emit (EParseHtml source);
    parsed_page ← parse_html source;
    let comments := default [] (comments inp) in
    comment_summary ← _analyze_comments comments;
    title ← _generate_title parsed_page comment_summary;
    let keywords := _derive_keywords parsed_page title in
    let blog_post := generate default_generator title keywords comment_summary in
    mret {| parsed := parsed_page; comment_summary := comment_summary;
            out_title := title; blog_post := blog_post |}.

End Run.

(** ** Further functions of the same files *)

Module PyLines.

Definition CR : char := 13%N.

(** The line boundaries of [str.splitlines()] other than the pair
    CR LF: line feed, carriage return, vertical tab, form feed, the
    file, group and record separators, next line, and the Unicode line
    and paragraph separators. *)
Definition is_linebreak (c : char) : bool :=
  ((c =? 10) || (c =? 13) || (c =? 11) || (c =? 12)
   || (28 <=? c) && (c <=? 30)
   || (c =? 133) || (c =? 8232) || (c =? 8233))%N.

(** [s.splitlines()]: one scan; [cur] is the line being collected, in
    reverse, and [after_cr] tells that the previous character was a
    carriage return, so that a line feed right after it belongs to the
    same boundary. A last line is produced only when it is not empty. *)
Fixpoint splitlines_go (after_cr : bool) (cur : str) (s : str) : list str :=
  match s with
  | [] => match cur with [] => [] | _ => [rev cur] end
  | c :: r =>
      if (c =? LF)%N then
        if after_cr then splitlines_go false cur r
        else rev cur :: splitlines_go false [] r
      else if (c =? CR)%N then rev cur :: splitlines_go true [] r
      else if is_linebreak c then rev cur :: splitlines_go false [] r
      else splitlines_go false (c :: cur) r
  end.

Definition splitlines (s : str) : list str := splitlines_go false [] s.

End PyLines.

Import PyLines.

(** The text part of [_clean_body_text]: [text] is what
    [body.get_text(separator="\n", strip=True)] returned. *)
Definition _clean_body_text (text : str) : str :=
  let lines := filter (fun line => truthy line = true) (splitlines text) in
  join [LF] lines.

(** [_parse_comments_arg]. [json_list raw] stands for the [json.loads]
    attempt: [Some l] when it returns a list, [l] holding [str(x)] of
    its elements, and [None] when it raises or returns another value. *)
Definition _parse_comments_arg (json_list : str -> option (list str))
    (raw : option str) : option (list str) :=
  match raw with
  | None => None
  | Some raw =>
      if negb (truthy raw) then None
      else
        let raw := strip raw in
        if negb (truthy raw) then None
        else
          let by_lines :=
            map strip (filter (fun line => truthy (strip line) = true) (splitlines raw)) in
          if starts_with [91%N] raw then
            match json_list raw with
            | Some data => Some data
            | None => Some by_lines
            end
          else Some by_lines
  end.

(** * Vocabulary of the properties *)

Definition no_space (s : str) : Prop := Forall (fun c => is_space c = false) s.

(** A token as [split] produces it: not empty, no whitespace inside. *)
Definition is_token (t : str) : Prop := t <> [] /\ no_space t.

Definition is_punct (c : char) : bool := existsb (N.eqb c) punctuation.

(** What the chain of [replace] calls does to one character. *)
Definition blank_out (c : char) : char := if is_punct c then SPACE else c.

Definition no_punct (s : str) : Prop := Forall (fun c => is_punct c = false) s.

(** Keep the first occurrence of every element, in order. *)
Fixpoint dedup_first (l : list str) : list str :=
  match l with
  | [] => []
  | x :: r => x :: filter (fun y => y <> x) (dedup_first r)
  end.

Definition long_enough (s : str) : Prop := 2 <= length s.

#[global] Instance long_enough_dec s : Decision (long_enough s).
Proof. unfold long_enough. apply _. Defined.

(** A text that is empty or whitespace only. *)
Definition is_blank (kw : str) : Prop := Forall (fun c => is_space c = true) kw.

#[global] Instance is_blank_dec kw : Decision (is_blank kw).
Proof. unfold is_blank. apply _. Defined.

(** The Markdown section headings of a document: its lines that begin
    with [## ]. *)
Definition heading_lines (doc : str) : list str :=
  filter (fun l => starts_with Lit.h2 l = true) (lines doc).

(** A text without a line feed. *)
Definition single_line (s : str) : Prop := contains [LF] s = false.

(** Every string held by a comment summary. *)
Definition summary_strings (cs : CommentSummary) : list str :=
  highlights cs ++ pain_points cs ++ wishes cs ++
  match tone cs with Some t => [t] | None => [] end.

(** [x] begins (resp. ends) with a character that does not occur in
    [pat], or is empty: no occurrence of [pat] can reach across that
    end of [x]. *)
Definition starts_guard (pat x : str) : bool :=
  match x with
  | [] => true
  | c :: _ => negb (has_char c pat)
  end.

Definition ends_guard (pat x : str) : bool := starts_guard pat (rev x).

(** An empty quoted field, and the text None. *)
Definition empty_quotes : str := [QUOTE; QUOTE].
Definition none_text : str := Eval vm_compute in lit "None".

(** The document as blocks of lines: three outline lines, then for
    each section its heading, subheading and paragraph. *)
Definition section_lines (g : BlogPostGenerator) (name t : str)
    (ks : list str) (cs : CommentSummary) : list str :=
  [Lit.h2 ++ name; Lit.h3 ++ _build_subheading name t cs; _build_paragraph g name ks cs].

Definition document_blocks (g : BlogPostGenerator) (t : str)
    (kws : list str) (cs : CommentSummary) : list (list str) :=
  let k := clean_keywords kws in
  [ [Lit.h1 ++ t]; [Lit.outline_kw ++ seo_hint k]; [Lit.outline_structure];
    section_lines g Lit.sec_intro t (_keywords_for_section g k 0) cs;
    section_lines g Lit.sec_problem t (_keywords_for_section g k 1) cs;
    section_lines g Lit.sec_info t (_keywords_for_section g k 2) cs;
    section_lines g Lit.sec_wrap t (_keywords_for_section g k 3) cs ].

(** [pat] does not occur in [s]. *)
Definition free_of (pat s : str) : Prop := contains pat s = false.

(** ** Sample inputs *)

(** A title of two lines whose second line reads as a heading. *)
Definition two_line_title : str :=
  Eval vm_compute in lit "Guide" ++ [LF] ++ lit "## Extra".

Definition sample_summary : CommentSummary :=
  {| highlights := [lit "great tips"]; pain_points := [lit "too long"];
     wishes := [lit "want video"]; tone := Some (lit "warm") |}.

(** ** Reading a CommentSummary-like [dict] *)

(** The sequence stored under [k], or the empty sequence. *)
Definition dict_list (d : gmap (list N) PyVal) (k : str) : list str :=
  match d !! k with
  | Some (VList l) => l
  | _ => []
  end.

(** The tone stored under ["tone"], if any. *)
Definition dict_tone (d : gmap (list N) PyVal) : option str :=
  match d !! Key.tone with
  | Some (VStr s) => Some s
  | _ => None
  end.

(** The entries of the four fields, where present, have the types of
    the [CommentSummary] fields. *)
Definition list_entry (d : gmap (list N) PyVal) (k : str) : Prop :=
  match d !! k with
  | Some (VList _) | None => True
  | Some _ => False
  end.

Definition tone_entry (d : gmap (list N) PyVal) : Prop :=
  match d !! Key.tone with
  | Some (VStr _) | Some VNone | None => True
  | Some _ => False
  end.

Definition dict_well_typed (d : gmap (list N) PyVal) : Prop :=
  list_entry d Key.highlights /\ list_entry d Key.pain_points /\
  list_entry d Key.wishes /\ tone_entry d.

(** The call the title generator is to receive for a page: the page
    title and no body text when there is a title, an empty base title
    and the body text otherwise. *)
Definition title_call (page : ParsedPage) (cs : CommentSummary) : TitleCall :=
  if opt_truthy (title page)
  then {| arg_base_title := opt_str (title page);
          arg_meta_description := opt_str (meta_description page);
          arg_highlights := highlights cs;
          arg_pain_points := pain_points cs;
          arg_wishes := wishes cs;
          arg_body_text := None |}
  else {| arg_base_title := [];
          arg_meta_description := opt_str (meta_description page);
          arg_highlights := highlights cs;
          arg_pain_points := pain_points cs;
          arg_wishes := wishes cs;
          arg_body_text := Some (body_text page) |}.

Definition is_summarize (e : Event) : Prop :=
  match e with ESummarize _ => True | _ => False end.

(** ** Sample collaborators *)

(** A page with a title and a description, an analyzer answering
    [answer], and a title generator that keeps a given base title. *)
Definition sample_soup : Soup :=
  {| soup_title := Some (Some (lit "Test"));
     soup_meta := Some (Some (lit "desc"));
     soup_body_text := lit "body" |}.

Definition collaborators_of (soup : Soup) (answer : Analyzed) : Collaborators :=
  {| _is_url := fun s => inr (starts_with (lit "http") s);
     http_get := fun _ => inl RequestException;
     make_soup := fun _ => inr soup;
     summarize := fun _ => answer;
     title_generate := fun c => py_or (arg_base_title c) (lit "Untitled") |}.

Definition sample_collaborators (answer : Analyzed) : Collaborators :=
  collaborators_of sample_soup answer.

(** A page without a [title] tag and without a description. *)
Definition untitled_soup : Soup :=
  {| soup_title := None; soup_meta := None; soup_body_text := lit "body" |}.

Definition sample_dict : gmap (list N) PyVal :=
  {[ Key.highlights := VList [lit "great tips"] ]}.

Definition markup_input (comments : option (list str)) : PipelineInput :=
  {| url := None; html := Some (lit "<title>Test</title>");
     youtube_video_id := None; comments := comments |}.

Definition blank_url_input : PipelineInput :=
  {| url := Some (lit "   "); html := None;
     youtube_video_id := None; comments := None |}.

(** The post for the title Test, the keywords Test and desc and no
    comments, written out. *)
Definition sample_post : str :=
  Eval vm_compute in lit "# Test

- 주제 키워드: Test, desc

- 구성: 서론 → 문제 제기 → 정보 제공 → 정리

## 서론
### Test를 살펴보기 위한 첫걸음
읽기 쉬운 흐름으로 시작합니다. Test와 desc를 자연스럽게 녹여 주제를 소개하고, 독자가 궁금해할 질문을 던집니다.

## 문제 제기
### 독자 의견 속에서 드러난 고민
댓글에서 특히 언급된 '해결이 필요한 문제'를 토대로 문제를 정리합니다. Test와 desc를 과도하지 않게 배치해 공감대를 형성합니다.

## 정보 제공
### 핵심 정보와 적용 팁
실제 독자가 강조한 '주목 받은 의견'와 바라는 '독자가 바라는 방향'를 중심으로 정보와 사례를 제시합니다. Test와 desc는 활용 팁과 함께 배치해 검색 가독성을 높입니다.

## 정리
### 정리하며 살펴볼 핵심 포인트
앞서 다룬 내용을 간결하게 요약하며 Test와 desc를 다시 한 번 짚습니다. 독자가 바로 적용할 수 있는 다음 행동을 안내하고 톤을 '긍정적'으로 유지합니다.".

(** ** Further sample inputs *)

Definition nine_keywords : list str :=
  [lit "k1"; lit "k2"; lit "k3"; lit "k4"; lit "k5"; lit "k6"; lit "k7"; lit "k8"; lit "k9"].

(** The output of a run whose page is [page] and whose comment summary
    is [cs]. *)
Definition output_of `{C : Collaborators} (page : ParsedPage) (cs : CommentSummary)
    : PipelineOutput :=
  let t := title_generate (title_call page cs) in
  {| parsed := page; comment_summary := cs; out_title := t;
     blog_post := generate default_generator t (_derive_keywords page t) cs |}.

(** The four keys [_analyze_comments] reads from a [dict]. *)
Definition summary_keys : list str :=
  [Key.highlights; Key.pain_points; Key.wishes; Key.tone].

Definition with_html (inp : PipelineInput) (h : option str) : PipelineInput :=
  {| url := url inp; html := h; youtube_video_id := youtube_video_id inp;
     comments := comments inp |}.

Definition url_input (u : str) (cmts : option (list str)) : PipelineInput :=
  {| url := Some u; html := None; youtube_video_id := None; comments := cmts |}.

Definition extra_key_dict : gmap (list N) PyVal :=
  <[ lit "score" := VInt 3 ]> sample_dict.

Definition none_highlights_dict : gmap (list N) PyVal :=
  {[ Key.highlights := VNone ]}.

Definition text_highlights_dict : gmap (list N) PyVal :=
  {[ Key.highlights := VStr (lit "ok") ]}.

Definition sample_page : ParsedPage :=
  {| title := Some (lit "Test"); meta_description := Some (lit "desc");
     body_text := lit "body" |}.

(** A text without any line boundary. *)
Definition no_linebreak (s : str) : Prop := Forall (fun c => is_linebreak c = false) s.

(** An analyzer of JSON text that always fails. *)
Definition no_json : str -> option (list str) := fun _ => None.

(** Collaborators whose requests succeed. *)
Definition fetching_collaborators : Collaborators :=
  {| _is_url := fun s => inr (starts_with (lit "http") s);
     http_get := fun _ => inr (lit "<title>Test</title>");
     make_soup := fun _ => inr sample_soup;
     summarize := fun _ => ASummary sample_summary;
     title_generate := fun c => py_or (arg_base_title c) (lit "Untitled") |}.

(** Collaborators as they behave on the two inputs the libraries
    refuse: [urlparse] raises [ValueError] on a source that opens an
    unclosed bracketed host, and the HTML parser rejects every
    markup. *)
Definition rejecting_collaborators : Collaborators :=
  {| _is_url := fun s => if starts_with (lit "//[") s then inl ValueError else inr false;
     http_get := fun _ => inl RequestException;
     make_soup := fun _ => inl ParserRejectedMarkup;
     summarize := fun _ => ASummary sample_summary;
     title_generate := fun c => py_or (arg_base_title c) (lit "Untitled") |}.

(** * Properties *)

(** ** Whitespace stripping *)

Lemma lstrip_head s :
  lstrip s = [] \/ exists c r, lstrip s = c :: r /\ is_space c = false.
Proof.
  induction s as [|c r IH]; simpl; [by left|].
  destruct (is_space c) eqn:E; [exact IH|].
  right. by exists c, r.
Qed.

Lemma rstrip_cons_keep c r :
  is_space c = false -> rstrip (c :: r) = c :: rstrip r.
Proof.
  intros E. simpl. rewrite E. by destruct (rstrip r).
Qed.

Lemma rstrip_idem s : rstrip (rstrip s) = rstrip s.
Proof.
  induction s as [|c r IH]; simpl; [done|].
  destruct (rstrip r) as [|x r'] eqn:E.
  - destruct (is_space c) eqn:Ec; simpl; [done|]. by rewrite Ec.
  - change (rstrip (c :: x :: r') = c :: x :: r').
    simpl. simpl in IH. destruct (rstrip r') eqn:E'.
    + destruct (is_space x); [discriminate|]. by injection IH as ->.
    + by rewrite IH.
Qed.

Lemma strip_idem s : strip (strip s) = strip s.
Proof.
  unfold strip.
  destruct (lstrip_head s) as [->|(c & r & -> & Ec)]; [done|].
  rewrite (rstrip_cons_keep _ _ Ec). simpl lstrip. rewrite Ec.
  rewrite (rstrip_cons_keep _ _ Ec). by rewrite rstrip_idem.
Qed.

Lemma lstrip_no_space s : no_space s -> lstrip s = s.
Proof. destruct 1 as [|c r Hc _]; simpl; [done|]. by rewrite Hc. Qed.

Lemma rstrip_no_space s : no_space s -> rstrip s = s.
Proof.
  induction 1 as [|c r Hc _ IH]; simpl; [done|].
  rewrite IH, Hc. by destruct r.
Qed.

Lemma strip_no_space s : no_space s -> strip s = s.
Proof.
  intros H. unfold strip. by rewrite (lstrip_no_space _ H), rstrip_no_space.
Qed.

(** ** [split] and [join] *)

Lemma split_go_tokens s : forall cur,
  no_space cur -> Forall is_token (split_go cur s).
Proof.
  induction s as [|c r IH]; intros cur Hcur; simpl.
  - destruct cur as [|x cur']; [constructor|].
    repeat constructor.
    + intros E. apply (f_equal (@length N)) in E. rewrite length_rev in E. discriminate.
    + unfold no_space. by apply Forall_rev.
  - destruct (is_space c) eqn:Ec.
    + destruct cur as [|x cur'].
      * apply IH. constructor.
      * constructor; [|apply IH; constructor].
        split.
        -- intros E. apply (f_equal (@length N)) in E. rewrite length_rev in E. discriminate.
        -- unfold no_space. by apply Forall_rev.
    + apply IH. by constructor.
Qed.

Lemma split_tokens s : Forall is_token (split s).
Proof. apply split_go_tokens. constructor. Qed.

(** Every character of a token is a character of the text. *)
Lemma split_go_chars (Q : char -> Prop) s : forall cur,
  Forall Q cur -> Forall Q s -> Forall (Forall Q) (split_go cur s).
Proof.
  induction s as [|c r IH]; intros cur Hcur Hs; simpl.
  - destruct cur; [constructor|]. repeat constructor. by apply Forall_rev.
  - inversion_clear Hs as [|? ? Hc Hr].
    destruct (is_space c).
    + destruct cur; [by apply IH|].
      constructor; [by apply Forall_rev | by apply IH].
    + apply IH; [by constructor | done].
Qed.

Lemma split_chars (Q : char -> Prop) s :
  Forall Q s -> Forall (Forall Q) (split s).
Proof. intros. by apply split_go_chars. Qed.

Lemma split_go_word w : forall cur rest,
  no_space w -> split_go cur (w ++ rest) = split_go (rev w ++ cur) rest.
Proof.
  induction w as [|c w IH]; intros cur rest Hw; simpl; [done|].
  inversion_clear Hw as [|? ? Hc Hw']. rewrite Hc, IH by done.
  by rewrite <- app_assoc.
Qed.

Lemma split_go_sep cur r :
  cur <> [] -> split_go cur (SPACE :: r) = rev cur :: split_go [] r.
Proof. by destruct cur. Qed.

Lemma rev_app_nonempty (t cur : str) : t <> [] -> rev t ++ cur <> [].
Proof.
  intros Ht E. apply (f_equal (@length N)) in E.
  rewrite length_app, length_rev in E. destruct t; [done|]. simpl in E. lia.
Qed.

Lemma split_go_join ts : forall cur,
  Forall is_token ts ->
  split_go cur (join [SPACE] ts) =
    match ts with
    | [] => match cur with [] => [] | _ => [rev cur] end
    | t :: ts' => (rev cur ++ t) :: ts'
    end.
Proof.
  induction ts as [|t ts IH]; intros cur Hts; [done|].
  inversion_clear Hts as [|? ? [Htne Ht] Hts'].
  destruct ts as [|t' ts'].
  - simpl join. rewrite <- (app_nil_r t) at 1. rewrite split_go_word by done.
    pose proof (rev_app_nonempty t cur Htne) as Hne.
    simpl. destruct (rev t ++ cur) eqn:E; [done|].
    by rewrite <- E, rev_app_distr, rev_involutive.
  - change (join [SPACE] (t :: t' :: ts')) with (t ++ SPACE :: join [SPACE] (t' :: ts')).
    rewrite split_go_word by done.
    rewrite split_go_sep by by apply rev_app_nonempty.
    rewrite rev_app_distr, rev_involutive.
    by rewrite IH.
Qed.

Lemma split_join ts : Forall is_token ts -> split (join [SPACE] ts) = ts.
Proof.
  intros H. unfold split. rewrite split_go_join by done. by destruct ts.
Qed.

(** ** Tokenisation *)

Lemma replace_chain l : forall text,
  fold_left (fun t ch => replace_char ch t) l text =
  map (fun c => if existsb (N.eqb c) l then SPACE else c) text.
Proof.
  induction l as [|ch l IH]; intros text; simpl.
  - by rewrite map_id.
  - rewrite IH. unfold replace_char. rewrite map_map.
    apply map_ext. intros c. destruct (N.eqb_spec c ch) as [->|]; simpl; [|done].
    by destruct (existsb _ l).
Qed.

Lemma tokenize_unfold text :
  _tokenize_ko_simple text = filter (fun t => truthy t = true) (split (map blank_out text)).
Proof. unfold _tokenize_ko_simple. by rewrite replace_chain. Qed.

Lemma blank_out_no_punct text : no_punct (map blank_out text).
Proof.
  apply Forall_map, Forall_forall. intros c _. unfold blank_out.
  destruct (is_punct c) eqn:E; [done | exact E].
Qed.

Lemma blank_out_id text : no_punct text -> map blank_out text = text.
Proof.
  induction 1 as [|c r Hc _ IH]; simpl; [done|].
  unfold blank_out at 1. by rewrite Hc, IH.
Qed.

Lemma filter_all {A} (P : A -> Prop) `{!forall x, Decision (P x)} (l : list A) :
  Forall P l -> filter P l = l.
Proof.
  induction 1 as [|x r Hx _ IH]; [done|].
  by rewrite filter_cons_True, IH.
Qed.

Lemma Forall_filter_keep {A} (P Q : A -> Prop) `{!forall x, Decision (Q x)} (l : list A) :
  Forall P l -> Forall P (filter Q l).
Proof.
  rewrite !Forall_forall. intros HP x Hx. apply HP.
  by apply list_elem_of_filter in Hx as [_ ?].
Qed.

Lemma tokens_truthy ts :
  Forall is_token ts -> filter (fun t : str => truthy t = true) ts = ts.
Proof.
  intros H. apply filter_all. eapply Forall_impl; [exact H|].
  intros [|] [? _]; done.
Qed.

(** Tokenising is splitting the blanked text: the emptiness filter of
    the source never removes anything. *)
Lemma tokenize_split text : _tokenize_ko_simple text = split (map blank_out text).
Proof. rewrite tokenize_unfold. apply tokens_truthy, split_tokens. Qed.

Lemma tokenize_tokens text :
  Forall (fun t => is_token t /\ no_punct t) (_tokenize_ko_simple text).
Proof.
  rewrite tokenize_split. apply Forall_and. split.
  - apply split_tokens.
  - apply split_chars, blank_out_no_punct.
Qed.

Lemma join_space_no_punct ts :
  Forall no_punct ts -> no_punct (join [SPACE] ts).
Proof.
  induction 1 as [|t r Ht Hr IH]; [constructor|].
  destruct r as [|t' r']; [exact Ht|].
  change (no_punct (t ++ SPACE :: join [SPACE] (t' :: r'))).
  apply Forall_app. split; [done|]. by constructor.
Qed.

Lemma tokenize_join ts :
  Forall (fun t => is_token t /\ no_punct t) ts ->
  _tokenize_ko_simple (join [SPACE] ts) = ts.
Proof.
  intros H. apply Forall_and in H as [Htok Hp].
  rewrite tokenize_split, blank_out_id by by apply join_space_no_punct.
  by apply split_join.
Qed.

(** ** De-duplication *)

Lemma dedup_loop_spec seeds : forall (seen : gset (list N)) out,
  Forall (fun s => strip s = s) seeds ->
  dedup_loop seeds seen out =
  out ++ filter (fun y => y ∉ seen) (dedup_first (filter long_enough seeds)).
Proof.
  induction seeds as [|s rest IH]; intros seen out Hs; simpl.
  - by rewrite app_nil_r.
  - inversion_clear Hs as [|? ? Hstrip Hrest]. rewrite Hstrip.
    destruct (Nat.ltb_spec (length s) 2) as [Hlen|Hlen].
    + rewrite orb_true_r. rewrite filter_cons_False by (unfold long_enough; lia).
      by apply IH.
    + assert (truthy s = true) as -> by (destruct s; [simpl in Hlen; lia | done]).
      simpl negb. simpl orb.
      rewrite filter_cons_True by exact Hlen. simpl dedup_first.
      destruct (decide (s ∈ seen)) as [Hin|Hnin].
      * rewrite filter_cons_False by (intros Hn; by apply Hn).
        rewrite list_filter_filter, IH by done. f_equal.
        apply list_filter_iff. intros y. split; [|by intros [? _]].
        intros Hy. split; [done|]. by intros ->.
      * rewrite filter_cons_True by done.
        rewrite list_filter_filter, IH by done.
        rewrite <- app_assoc. simpl. do 2 f_equal.
        apply list_filter_iff. intros y.
        rewrite elem_of_union, elem_of_singleton. tauto.
Qed.

Lemma dedup_first_subseteq l : dedup_first l ⊆ l.
Proof.
  induction l as [|x r IH]; simpl; [done|].
  intros y Hy. apply elem_of_cons in Hy as [->|Hy]; [left|].
  right. apply IH. by apply list_elem_of_filter in Hy as [_ ?].
Qed.

Lemma dedup_first_Forall (P : str -> Prop) l : Forall P l -> Forall P (dedup_first l).
Proof.
  rewrite !Forall_forall. intros H y Hy. apply H.
  by apply dedup_first_subseteq.
Qed.

Lemma dedup_first_NoDup l : NoDup (dedup_first l).
Proof.
  induction l as [|x r IH]; simpl; constructor.
  - intros Hx. by apply list_elem_of_filter in Hx as [? _].
  - by apply NoDup_filter.
Qed.

Lemma dedup_first_id l : NoDup l -> dedup_first l = l.
Proof.
  induction 1 as [|x r Hx _ IH]; simpl; [done|].
  rewrite IH. f_equal. apply filter_all, Forall_forall.
  intros y Hy ->. by apply Hx.
Qed.

Lemma NoDup_take {A} (n : nat) (l : list A) : NoDup l -> NoDup (take n l).
Proof.
  intros H. rewrite <- (take_drop n l) in H. by apply NoDup_app in H as [? _].
Qed.

(** ** Substrings across concatenations *)

Lemma starts_with_nil_r pat : pat <> [] -> starts_with pat [] = false.
Proof. by destruct pat. Qed.

Lemma contains_nil pat : pat <> [] -> contains pat [] = false.
Proof. by destruct pat. Qed.

Lemma has_char_cons_false c x pat :
  has_char c (x :: pat) = false -> (x =? c)%N = false /\ has_char c pat = false.
Proof. unfold has_char. simpl. by intros ?%orb_false_elim. Qed.

Lemma starts_with_guard pat : forall a c b,
  has_char c pat = false ->
  starts_with pat (a ++ c :: b) = starts_with pat a.
Proof.
  induction pat as [|p pat IH]; intros a c b Hc; [by destruct a|].
  apply has_char_cons_false in Hc as [Hpc Hc].
  destruct a as [|x a]; simpl.
  - by rewrite Hpc.
  - by rewrite IH.
Qed.

Lemma starts_with_guard_head pat c b :
  pat <> [] -> has_char c pat = false -> starts_with pat (c :: b) = false.
Proof.
  intros Hne Hc. pose proof (starts_with_guard pat [] c b Hc) as H.
  simpl app in H. by rewrite H, starts_with_nil_r.
Qed.

Lemma contains_guard pat a c b :
  pat <> [] -> has_char c pat = false ->
  contains pat (a ++ c :: b) = contains pat a || contains pat b.
Proof.
  intros Hne Hc. induction a as [|x a IH].
  - simpl app. rewrite contains_nil by done.
    change (contains pat (c :: b)) with (starts_with pat (c :: b) || contains pat b).
    by rewrite starts_with_guard_head.
  - change (contains pat ((x :: a) ++ c :: b))
      with (starts_with pat ((x :: a) ++ c :: b) || contains pat (a ++ c :: b)).
    change (contains pat (x :: a)) with (starts_with pat (x :: a) || contains pat a).
    rewrite starts_with_guard, IH by done. by rewrite orb_assoc.
Qed.

(** G1: the right part starts with a guard. *)
Lemma contains_app_r pat v x :
  pat <> [] -> starts_guard pat x = true ->
  contains pat (v ++ x) = contains pat v || contains pat x.
Proof.
  intros Hne Hg. destruct x as [|c x].
  - by rewrite app_nil_r, contains_nil, orb_false_r.
  - simpl in Hg. apply negb_true_iff in Hg.
    rewrite contains_guard by done.
    change (contains pat (c :: x)) with (starts_with pat (c :: x) || contains pat x).
    by rewrite starts_with_guard_head.
Qed.

(** G2: the left part ends with a guard. *)
Lemma contains_app_l pat t r :
  pat <> [] -> ends_guard pat t = true ->
  contains pat (t ++ r) = contains pat t || contains pat r.
Proof.
  intros Hne Hg. unfold ends_guard in Hg.
  destruct t as [|c t _] using rev_ind; [by rewrite app_nil_l, contains_nil|].
  rewrite rev_app_distr in Hg. simpl in Hg. apply negb_true_iff in Hg.
  rewrite <- app_assoc. simpl app at 2.
  rewrite contains_guard by done.
  rewrite (contains_guard pat t c []) by done.
  by rewrite (contains_nil pat), orb_false_r.
Qed.

Lemma starts_with_mono pat : forall a w,
  starts_with pat a = true -> starts_with pat (a ++ w) = true.
Proof.
  induction pat as [|p pat IH]; intros [|x a] w; simpl; try done.
  intros [-> ?]%andb_prop. simpl. by apply IH.
Qed.

Lemma contains_prefix pat a w :
  contains pat (a ++ w) = false -> contains pat a = false.
Proof.
  intros H. apply not_true_is_false. intros Ha.
  assert (contains pat (a ++ w) = true) as Hc; [|congruence].
  clear H. induction a as [|x a IH].
  - simpl in Ha. rewrite orb_false_r in Ha.
    destruct pat; [by destruct w | done].
  - change (starts_with pat ((x :: a) ++ w) || contains pat (a ++ w) = true).
    change (starts_with pat (x :: a) || contains pat a = true) in Ha.
    apply orb_prop in Ha as [Ha|Ha].
    + by rewrite starts_with_mono.
    + by rewrite IH, orb_true_r.
Qed.

Lemma contains_suffix pat a w :
  contains pat (a ++ w) = false -> contains pat w = false.
Proof.
  induction a as [|x a IH]; [done|].
  change (starts_with pat ((x :: a) ++ w) || contains pat (a ++ w) = false -> contains pat w = false).
  intros [_ ?]%orb_false_elim. by apply IH.
Qed.

Lemma lstrip_suffix s : exists a, s = a ++ lstrip s.
Proof.
  induction s as [|c r [a IH]]; [by exists []|]. simpl.
  destruct (is_space c); [|by exists []].
  exists (c :: a). simpl. by rewrite <- IH.
Qed.

Lemma rstrip_prefix s : exists w, s = rstrip s ++ w.
Proof.
  induction s as [|c r [w IH]]; [by exists []|]. simpl.
  destruct (rstrip r) as [|x r'] eqn:E.
  - destruct (is_space c); [by exists (c :: r)|].
    exists w. simpl. by rewrite IH.
  - exists w. simpl. simpl in IH. by rewrite <- IH.
Qed.

Lemma contains_strip pat s : contains pat s = false -> contains pat (strip s) = false.
Proof.
  intros H. unfold strip.
  destruct (lstrip_suffix s) as [a Ha]. destruct (rstrip_prefix (lstrip s)) as [w Hw].
  rewrite Ha in H. apply contains_suffix in H. rewrite Hw in H.
  by apply contains_prefix in H.
Qed.

Lemma contains_join pat sep parts :
  pat <> [] -> sep <> [] ->
  starts_guard pat sep = true -> ends_guard pat sep = true -> contains pat sep = false ->
  Forall (fun p => contains pat p = false) parts ->
  contains pat (join sep parts) = false.
Proof.
  intros Hne Hsne Hs He Hsep. induction 1 as [|p r Hp Hr IH].
  - by apply contains_nil.
  - destruct r as [|p' r']; [exact Hp|].
    change (join sep (p :: p' :: r')) with (p ++ sep ++ join sep (p' :: r')).
    destruct sep as [|c sep']; [done|].
    rewrite contains_app_r; [|done|exact Hs].
    rewrite contains_app_l by done.
    by rewrite Hp, Hsep, IH.
Qed.

Lemma clean_keywords_contains pat kws :
  Forall (fun k => contains pat k = false) kws ->
  Forall (fun k => contains pat k = false) (clean_keywords kws).
Proof.
  intros H. unfold clean_keywords. apply Forall_map.
  apply Forall_filter_keep. eapply Forall_impl; [exact H|].
  intros k. apply contains_strip.
Qed.

(** ** Lines *)

Lemma single_line_cons x a :
  single_line (x :: a) -> (x =? LF)%N = false /\ single_line a.
Proof.
  unfold single_line.
  change (contains [LF] (x :: a)) with (((LF =? x)%N && true) || contains [LF] a).
  intros [H1 H2]%orb_false_elim. split; [|done].
  rewrite andb_true_r in H1. by rewrite N.eqb_sym.
Qed.

Lemma lines_single a : single_line a -> lines a = [a].
Proof.
  induction a as [|x a IH]; [done|].
  intros [Hx Ha]%single_line_cons. simpl. by rewrite Hx, IH.
Qed.

Lemma lines_app_lf a b : single_line a -> lines (a ++ LF :: b) = a :: lines b.
Proof.
  induction a as [|x a IH]; [done|].
  intros [Hx Ha]%single_line_cons. simpl. by rewrite Hx, IH.
Qed.

Lemma lines_join_app ls x :
  ls <> [] -> Forall single_line ls ->
  lines (join [LF] ls ++ LF :: x) = ls ++ lines x.
Proof.
  intros Hne H. induction H as [|l r Hl Hr IH]; [done|].
  destruct r as [|l' r'].
  - simpl join. by rewrite lines_app_lf.
  - change (join [LF] (l :: l' :: r')) with (l ++ LF :: join [LF] (l' :: r')).
    rewrite <- app_assoc, <- app_comm_cons.
    rewrite lines_app_lf by done. by rewrite IH.
Qed.

Lemma lines_join ls :
  ls <> [] -> Forall single_line ls -> lines (join [LF] ls) = ls.
Proof.
  intros Hne H. induction H as [|l r Hl Hr IH]; [done|].
  destruct r as [|l' r'].
  - by apply lines_single.
  - change (join [LF] (l :: l' :: r')) with (l ++ LF :: join [LF] (l' :: r')).
    rewrite lines_app_lf by done. by rewrite IH.
Qed.

(** Blocks separated by an empty line. *)
Lemma lines_blocks (bs : list (list str)) :
  Forall (fun b => b <> [] /\ Forall single_line b) bs -> bs <> [] ->
  lines (join [LF; LF] (map (join [LF]) bs)) = join [[]] bs.
Proof.
  induction 1 as [|b r [Hb Hl] Hr IH]; intros Hne; [done|].
  destruct r as [|b' r'].
  - simpl. by apply lines_join.
  - change (join [LF; LF] (map (join [LF]) (b :: b' :: r')))
      with (join [LF] b ++ LF :: LF :: join [LF; LF] (map (join [LF]) (b' :: r'))).
    rewrite lines_join_app by done.
    change (lines (LF :: ?x)) with ([] :: lines x).
    by rewrite IH.
Qed.

Lemma filter_bool_keep {A} (f : A -> bool) (x : A) (r : list A) :
  f x = true ->
  filter (fun l => f l = true) (x :: r) = x :: filter (fun l => f l = true) r.
Proof. intros E. by rewrite filter_cons_True. Qed.

Lemma filter_bool_drop {A} (f : A -> bool) (x : A) (r : list A) :
  f x = false ->
  filter (fun l => f l = true) (x :: r) = filter (fun l => f l = true) r.
Proof. intros E. rewrite filter_cons_False; [done|]. by rewrite E. Qed.

Lemma lines_nonempty s : lines s <> [].
Proof.
  induction s as [|c r IH]; simpl; [done|].
  destruct (c =? LF)%N; [done|]. by destruct (lines r).
Qed.

(** A line feed always ends a line, whatever comes before it. *)
Lemma lines_app a b : lines (a ++ LF :: b) = lines a ++ lines b.
Proof.
  induction a as [|x a IH]; [done|]. simpl.
  destruct (x =? LF)%N; [by rewrite IH|].
  rewrite IH. pose proof (lines_nonempty a). by destruct (lines a).
Qed.

Lemma lines_app_nl a b : lines (a ++ Lit.nl ++ b) = lines a ++ lines b.
Proof. apply lines_app. Qed.

Lemma lines_app_nlnl a b : lines (a ++ Lit.nlnl ++ b) = lines a ++ [] :: lines b.
Proof. change (Lit.nlnl ++ b) with (LF :: LF :: b). by rewrite lines_app. Qed.

Lemma filter_sublist_mono {A} (P : A -> Prop) `{!forall x, Decision (P x)} (l1 l2 : list A) :
  l1 `sublist_of` l2 -> filter P l1 `sublist_of` filter P l2.
Proof.
  induction 1 as [|x l1 l2 _ IH|x l1 l2 _ IH]; [constructor| |].
  - destruct (decide (P x)).
    + rewrite !filter_cons_True by done. by constructor.
    + by rewrite !filter_cons_False.
  - destruct (decide (P x)).
    + rewrite filter_cons_True by done. by constructor.
    + by rewrite filter_cons_False.
Qed.

(** ** The keyword deriver *)

Lemma tokenize_nil : _tokenize_ko_simple [] = [].
Proof. reflexivity. Qed.

(** The two guards of [_derive_keywords] only skip texts that have no
    token anyway. *)
Lemma derive_keywords_seeds page t :
  _derive_keywords page t =
  take 12 (dedup_loop
             (_tokenize_ko_simple t ++ _tokenize_ko_simple (opt_str (meta_description page)))
             ∅ []).
Proof.
  unfold _derive_keywords.
  assert (forall s, (if truthy s then _tokenize_ko_simple s else []) = _tokenize_ko_simple s)
    as H1 by (intros [|]; reflexivity).
  assert (forall o, (if opt_truthy o then _tokenize_ko_simple (opt_str o) else [])
                    = _tokenize_ko_simple (opt_str o))
    as H2 by (intros [[|]|]; reflexivity).
  by rewrite H1, H2.
Qed.

Lemma tokens_stripped ts :
  Forall (fun t => is_token t /\ no_punct t) ts -> Forall (fun s => strip s = s) ts.
Proof.
  intros H. eapply Forall_impl; [exact H|].
  intros s [[_ Hs] _]. by apply strip_no_space.
Qed.

Lemma derive_keywords_eq page t :
  _derive_keywords page t =
  take 12 (dedup_first (filter long_enough
    (_tokenize_ko_simple t ++ _tokenize_ko_simple (opt_str (meta_description page))))).
Proof.
  rewrite derive_keywords_seeds, dedup_loop_spec.
  - rewrite app_nil_l. f_equal. apply filter_all, Forall_forall. intros y _. apply not_elem_of_empty.
  - apply tokens_stripped, Forall_app. split; apply tokenize_tokens.
Qed.

Lemma derive_keywords_tokens page t :
  Forall (fun k => is_token k /\ no_punct k) (_derive_keywords page t).
Proof.
  rewrite derive_keywords_eq. apply Forall_take, dedup_first_Forall.
  apply Forall_filter_keep, Forall_app. split; apply tokenize_tokens.
Qed.

Lemma derive_keywords_props page t :
  NoDup (_derive_keywords page t) /\
  Forall long_enough (_derive_keywords page t) /\
  length (_derive_keywords page t) <= 12.
Proof.
  rewrite derive_keywords_eq. split; [|split].
  - apply NoDup_take, dedup_first_NoDup.
  - apply Forall_take, dedup_first_Forall, Forall_forall.
    intros k Hk. by apply list_elem_of_filter in Hk as [? _].
  - rewrite length_take. lia.
Qed.

(** C3. For every title and page, the derived keyword list is the
    first-occurrence de-duplication of the tokens of the title followed
    by those of the meta description, without the tokens shorter than
    two characters, cut after twelve entries; a token is a piece of the
    text between whitespace once every punctuation character has been
    replaced by a space. The list has no duplicates, no entry shorter
    than two characters and at most twelve entries. *)
Theorem derive_keywords_spec (page : ParsedPage) (t : str) :
  let toks := _tokenize_ko_simple t ++ _tokenize_ko_simple (opt_str (meta_description page)) in
  let kws := _derive_keywords page t in
  (forall text, _tokenize_ko_simple text = split (map blank_out text)) /\
  kws = take 12 (dedup_first (filter long_enough toks)) /\
  NoDup kws /\
  Forall (fun k => 2 <= length k) kws /\
  length kws <= 12.
Proof.
  intros toks kws. split; [exact tokenize_split|].
  split; [apply derive_keywords_eq|]. apply derive_keywords_props.
Qed.

(** C7. Joining a derived keyword list with single spaces and deriving
    keywords again from the joined text, with an empty or absent meta
    description, gives the same list back. *)
Theorem derive_keywords_idempotent (page : ParsedPage) (t : str) :
  let kws := _derive_keywords page t in
  forall (t0 : option str) (b : str),
    _derive_keywords {| title := t0; meta_description := Some []; body_text := b |}
                     (join [SPACE] kws) = kws /\
    _derive_keywords {| title := t0; meta_description := None; body_text := b |}
                     (join [SPACE] kws) = kws.
Proof.
  intros kws t0 b.
  pose proof (derive_keywords_tokens page t) as Htok. fold kws in Htok.
  destruct (derive_keywords_props page t) as (Hnd & Hlen & Hmax).
  fold kws in Hnd, Hlen, Hmax.
  assert (take 12 (dedup_first (filter long_enough kws)) = kws) as Hfix.
  { rewrite filter_all by exact Hlen. rewrite dedup_first_id by exact Hnd.
    by apply take_ge. }
  split; rewrite derive_keywords_eq; simpl opt_str;
    rewrite tokenize_nil, app_nil_r, tokenize_join by exact Htok; exact Hfix.
Qed.

(** Sample runs of the keyword deriver. *)
Example tokenize_sample :
  _tokenize_ko_simple (lit "Test it! (now), a:b") = [lit "Test"; lit "it"; lit "now"; lit "a"; lit "b"].
Proof. vm_compute. reflexivity. Qed.

Example derive_keywords_sample :
  _derive_keywords {| title := None; meta_description := Some (lit "desc, a bb Test");
                      body_text := [] |} (lit "Test it! (now)")
  = [lit "Test"; lit "it"; lit "now"; lit "desc"; lit "bb"].
Proof. vm_compute. reflexivity. Qed.

(** ** Slices and the keyword chunk of a section *)

Lemma py_slice_nonneg {A} (l : list A) (a b : Z) :
  (0 <= a)%Z -> (a <= b)%Z ->
  py_slice l a b = take (Z.to_nat (b - a)) (drop (Z.to_nat a) l).
Proof.
  intros Ha Hb. unfold py_slice, clamp_index.
  destruct (Z.ltb_spec a 0); [lia|]. destruct (Z.ltb_spec b 0); [lia|].
  destruct (Z.le_gt_cases a (Z.of_nat (length l))) as [Hle|Hgt].
  - rewrite (Z.min_l a) by lia.
    destruct (Z.le_gt_cases b (Z.of_nat (length l))).
    + by rewrite (Z.min_l b) by lia.
    + rewrite (Z.min_r b) by lia.
      rewrite !take_ge; [done| |]; rewrite length_drop; lia.
  - rewrite !Z.min_r by lia.
    rewrite !drop_ge by lia. by rewrite !take_nil.
Qed.

Lemma py_slice_prefix {A} (l : list A) (n : Z) :
  (0 <= n)%Z -> py_slice l 0 n = take (Z.to_nat n) l.
Proof.
  intros Hn. rewrite py_slice_nonneg by lia.
  by rewrite Z.sub_0_r, drop_0.
Qed.

(** A slice only holds elements of the list, whatever the bounds. *)
Lemma py_slice_Forall {A} (P : A -> Prop) (l : list A) (a b : Z) :
  Forall P l -> Forall P (py_slice l a b).
Proof. intros H. unfold py_slice. by apply Forall_take, Forall_drop. Qed.

(** C4 (amended). With a positive chunk size [n] (2 by default), the keywords
    assigned to section [i] are the slice of the keyword list that
    starts at position [i * n] and has at most [n] entries; when that
    slice is empty the first [n] keywords are assigned instead, so the
    assigned chunk is empty only when the whole keyword list is. This
    holds for every index, in particular for the four sections 0..3. *)
Theorem keywords_for_section_spec (g : BlogPostGenerator) (kws : list str) (i : nat) :
  (0 < keywords_per_section g)%Z ->
  let n := Z.to_nat (keywords_per_section g) in
  let chunk := take n (drop (i * n) kws) in
  let assigned := _keywords_for_section g kws (Z.of_nat i) in
  assigned = match chunk with [] => take n kws | _ => chunk end /\
  length chunk <= n /\
  length assigned <= n /\
  (assigned = [] <-> kws = []).
Proof.
  intros Hpos n chunk assigned.
  assert (assigned = match chunk with [] => take n kws | _ => chunk end) as E.
  { unfold assigned, _keywords_for_section.
    rewrite py_slice_nonneg by nia. rewrite py_slice_prefix by lia.
    replace (Z.to_nat (Z.of_nat i * keywords_per_section g + keywords_per_section g
                       - Z.of_nat i * keywords_per_section g)) with n by (unfold n; lia).
    replace (Z.to_nat (Z.of_nat i * keywords_per_section g)) with (i * n)
      by (unfold n; nia).
    unfold chunk. fold n. by destruct (take n (drop (i * n) kws)). }
  assert (length chunk <= n) as Hc by (unfold chunk; rewrite length_take; lia).
  split; [exact E|]. split; [exact Hc|]. rewrite E. split.
  - destruct chunk; [rewrite length_take; lia | exact Hc].
  - assert (0 < n) as Hn by (unfold n; lia).
    split.
    + destruct chunk; [|done]. destruct kws; [done|].
      destruct n; [lia | done].
    + intros ->. unfold chunk. by rewrite drop_nil, take_nil.
Qed.

(** The witness of C4: the default generator and three keywords. *)
Lemma keywords_for_section_spec_witness :
  _keywords_for_section default_generator [lit "k1"; lit "k2"; lit "k3"] 1 = [lit "k3"] /\
  _keywords_for_section default_generator [lit "k1"; lit "k2"; lit "k3"] 2
    = [lit "k1"; lit "k2"].
Proof.
  split.
  - exact (proj1 (keywords_for_section_spec default_generator
                    [lit "k1"; lit "k2"; lit "k3"] 1 eq_refl)).
  - exact (proj1 (keywords_for_section_spec default_generator
                    [lit "k1"; lit "k2"; lit "k3"] 2 eq_refl)).
Defined.

(** C4 as stated fails for a chunk size that is not positive, which
    the constructor accepts: with chunk size 0 the assigned chunk is
    empty although the keyword list is not, and with chunk size -1 the
    first section is assigned eight of nine keywords. *)
Lemma zero_chunk_counterexample :
  _keywords_for_section {| keywords_per_section := 0 |} [lit "k1"; lit "k2"; lit "k3"] 0 = [] /\
  length (_keywords_for_section {| keywords_per_section := -1 |} nine_keywords 0) = 8.
Proof. split; vm_compute; reflexivity. Qed.

(** ** Keyword sanitising in [generate] *)

Lemma lstrip_nil_iff s : lstrip s = [] <-> is_blank s.
Proof.
  induction s as [|c r IH]; simpl; [by split; [constructor|]|].
  destruct (is_space c) eqn:E.
  - rewrite IH. split; [by constructor | by inversion 1].
  - split; [done|]. inversion 1; congruence.
Qed.

Lemma strip_nil_iff s : strip s = [] <-> is_blank s.
Proof.
  rewrite <- lstrip_nil_iff. unfold strip.
  destruct (lstrip_head s) as [->|(c & r & -> & Ec)]; [done|].
  by rewrite rstrip_cons_keep.
Qed.

Lemma truthy_strip_iff s : truthy (strip s) = true <-> ~ is_blank s.
Proof.
  rewrite <- strip_nil_iff. destruct (strip s); simpl; split; done.
Qed.

Lemma clean_keywords_eq kws :
  clean_keywords kws = map strip (filter (fun kw => ~ is_blank kw) kws).
Proof.
  unfold clean_keywords. f_equal. apply list_filter_iff.
  intros kw. apply truthy_strip_iff.
Qed.

Lemma clean_keywords_clean kws :
  Forall (fun k => ~ is_blank k /\ strip k = k) (clean_keywords kws).
Proof.
  rewrite clean_keywords_eq. apply Forall_map, Forall_forall.
  intros kw Hkw. apply list_elem_of_filter in Hkw as [Hnb _]. simpl.
  rewrite <- strip_nil_iff in *. by rewrite strip_idem.
Qed.

Lemma clean_keywords_idem kws : clean_keywords (clean_keywords kws) = clean_keywords kws.
Proof.
  pose proof (clean_keywords_clean kws) as H.
  rewrite (clean_keywords_eq (clean_keywords kws)).
  induction H as [|k r [Hnb Hs] _ IH]; [done|].
  rewrite filter_cons_True by done. simpl. by rewrite Hs, IH.
Qed.

(** C10. [generate] only looks at the sanitised keyword list: its
    result on any list equals its result on the list with the blank_out
    entries removed and every other entry stripped, and no entry of a
    section's keyword chunk is blank_out or carries surrounding whitespace. *)
Theorem generate_sanitizes_keywords
    (g : BlogPostGenerator) (t : str) (kws : list str) (cs : CommentSummary) :
  generate g t kws cs
    = generate g t (map strip (filter (fun kw => ~ is_blank kw) kws)) cs /\
  forall i : Z,
    Forall (fun k => ~ is_blank k /\ strip k = k)
           (_keywords_for_section g (clean_keywords kws) i).
Proof.
  split.
  - rewrite <- clean_keywords_eq. unfold generate. by rewrite clean_keywords_idem.
  - intros i. pose proof (clean_keywords_clean kws) as H.
    unfold _keywords_for_section.
    destruct (py_slice (clean_keywords kws) _ _) eqn:E.
    + by apply py_slice_Forall.
    + rewrite <- E. by apply py_slice_Forall.
Qed.

(** ** The shape of the composed post *)

Lemma generate_blocks g t kws cs :
  generate g t kws cs = join Lit.nlnl (map (join Lit.nl) (document_blocks g t kws cs)).
Proof. reflexivity. Qed.

Example generate_sample :
  generate default_generator (lit "Test") [lit " Test"; lit "  "; lit "desc "] empty_summary
  = sample_post.
Proof. vm_compute. reflexivity. Qed.

Example text_primitives_sample :
  strip (lit " 　a b
 ") = lit "a b" /\
  split (lit "  a 　b
c ") = [lit "a"; lit "b"; lit "c"] /\
  py_slice [1; 2; 3; 4; 5] (-3) (-1) = [3; 4] /\
  py_slice [1; 2; 3] 2 9 = [3] /\
  lines (lit "a

b") = [lit "a"; []; lit "b"].
Proof. vm_compute. repeat split. Qed.

Lemma build_subheading_intro t cs :
  _build_subheading Lit.sec_intro t cs = t ++ Lit.sub_intro.
Proof. reflexivity. Qed.

Lemma build_subheading_problem t cs :
  _build_subheading Lit.sec_problem t cs = tone_or (tone cs) Lit.ph_tone_hint ++ Lit.sub_problem.
Proof. reflexivity. Qed.

Lemma build_subheading_info t cs : _build_subheading Lit.sec_info t cs = Lit.sub_info.
Proof. reflexivity. Qed.

Lemma build_subheading_wrap t cs : _build_subheading Lit.sec_wrap t cs = Lit.sub_wrap.
Proof. reflexivity. Qed.

Lemma build_paragraph_intro g ks cs :
  _build_paragraph g Lit.sec_intro ks cs
  = Lit.p_intro_a ++ _scatter_keywords g ks ++ Lit.p_intro_b.
Proof. reflexivity. Qed.

Lemma build_paragraph_problem g ks cs :
  _build_paragraph g Lit.sec_problem ks cs
  = Lit.p_problem_a ++ py_or (join Lit.comma_sp (take 2 (pain_points cs))) Lit.ph_pain_points
      ++ Lit.p_problem_b ++ _scatter_keywords g ks ++ Lit.p_problem_c.
Proof. reflexivity. Qed.

Lemma build_paragraph_info g ks cs :
  _build_paragraph g Lit.sec_info ks cs
  = Lit.p_info_a ++ py_or (join Lit.comma_sp (take 2 (highlights cs))) Lit.ph_highlights
      ++ Lit.p_info_b ++ py_or (join Lit.comma_sp (take 2 (wishes cs))) Lit.ph_wishes
      ++ Lit.p_info_c ++ _scatter_keywords g ks ++ Lit.p_info_d.
Proof. reflexivity. Qed.

Lemma build_paragraph_wrap g ks cs :
  _build_paragraph g Lit.sec_wrap ks cs
  = Lit.p_wrap_a ++ _scatter_keywords g ks ++ Lit.p_wrap_b
      ++ tone_or (tone cs) Lit.ph_tone ++ Lit.p_wrap_c.
Proof. reflexivity. Qed.

Ltac unfold_sections :=
  rewrite ?build_subheading_intro, ?build_subheading_problem,
    ?build_subheading_info, ?build_subheading_wrap,
    ?build_paragraph_intro, ?build_paragraph_problem,
    ?build_paragraph_info, ?build_paragraph_wrap.

(** Split [contains pat (x ++ y)] at every junction where one side is
    guarded. *)
Ltac split_contains :=
  repeat first
    [ rewrite contains_app_l by (first [discriminate | reflexivity])
    | rewrite contains_app_r by (first [discriminate | reflexivity]) ].

(** Texts assembled from keywords. *)
Section Patterns.
Variable pat : str.
Hypothesis pat_nonempty : pat <> [].

Lemma seo_hint_free k :
  free_of pat Lit.ph_seo ->
  starts_guard pat Lit.comma_sp = true -> ends_guard pat Lit.comma_sp = true ->
  free_of pat Lit.comma_sp ->
  Forall (free_of pat) k -> free_of pat (seo_hint k).
Proof.
  intros Hph Hs He Hsep Hk. unfold seo_hint. destruct k as [|x k']; [exact Hph|].
  apply contains_join; try done. by apply Forall_take.
Qed.

Lemma scatter_keywords_free g ks :
  free_of pat Lit.ph_keyword ->
  starts_guard pat Lit.wa_sp = true -> ends_guard pat Lit.wa_sp = true ->
  free_of pat Lit.wa_sp ->
  Forall (free_of pat) ks -> free_of pat (_scatter_keywords g ks).
Proof.
  intros Hph Hs He Hsep Hk. unfold _scatter_keywords. destruct ks as [|x k']; [exact Hph|].
  apply contains_join; try done. by apply py_slice_Forall.
Qed.

Lemma keywords_for_section_free g k i :
  Forall (free_of pat) k -> Forall (free_of pat) (_keywords_for_section g k i).
Proof.
  intros H. unfold _keywords_for_section.
  destruct (py_slice k _ _) eqn:E; [|rewrite <- E]; by apply py_slice_Forall.
Qed.

Lemma joined_insight_free (items : list str) ph :
  free_of pat ph ->
  starts_guard pat Lit.comma_sp = true -> ends_guard pat Lit.comma_sp = true ->
  free_of pat Lit.comma_sp ->
  Forall (free_of pat) items -> free_of pat (py_or (join Lit.comma_sp (take 2 items)) ph).
Proof.
  intros Hph Hs He Hsep Hi. unfold py_or.
  destruct (truthy _); [|exact Hph].
  apply contains_join; try done. by apply Forall_take.
Qed.

Lemma tone_or_free (o : option str) ph :
  free_of pat ph -> (forall s, o = Some s -> free_of pat s) -> free_of pat (tone_or o ph).
Proof.
  intros Hph Ho. destruct o as [s|]; [|exact Hph]. simpl. unfold py_or.
  destruct (truthy s); [by apply Ho | exact Hph].
Qed.

End Patterns.

(** ** Placeholders for an empty comment summary *)

Lemma generate_empty_free pat g t kws :
  pat = empty_quotes \/ pat = none_text ->
  free_of pat t -> Forall (free_of pat) kws ->
  free_of pat (generate g t kws empty_summary).
Proof.
  intros Hpat Ht Hk.
  apply (clean_keywords_contains pat) in Hk.
  assert (pat <> []) as Hne by (destruct Hpat as [-> | ->]; discriminate).
  assert (free_of pat (seo_hint (clean_keywords kws))) as Hseo
    by (apply seo_hint_free; try done; destruct Hpat as [-> | ->]; reflexivity).
  assert (forall i, free_of pat
            (_scatter_keywords g (_keywords_for_section g (clean_keywords kws) i))) as Hkt.
  { intros i. apply scatter_keywords_free; try done;
      try (destruct Hpat as [-> | ->]; reflexivity).
    by apply keywords_for_section_free. }
  rewrite generate_blocks. unfold document_blocks, section_lines.
  cbn [map join]. unfold_sections. unfold free_of in *.
  destruct Hpat as [-> | ->]; split_contains;
    rewrite ?Ht, ?Hseo, ?Hkt; reflexivity.
Qed.

(** C8. With an empty comment summary, every quoted insight slot and
    both tone slots of the composed post hold their fixed placeholder
    phrases: the post is the text below, for every generator, title
    and keyword list. The quoted slots are delimited by the quote
    characters that end and begin the surrounding template texts; no
    placeholder is empty, none contains a quote character and none
    contains the text None, so no quoted field of the post is empty
    and no slot reads None. The rest of the post brings in neither:
    an empty pair of quotes or the text None occurs in the post only
    if it occurs in the title or in a keyword. *)
Theorem empty_summary_placeholders (g : BlogPostGenerator) (t : str) (kws : list str) :
  let k := clean_keywords kws in
  let kt i := _scatter_keywords g (_keywords_for_section g k i) in
  generate g t kws empty_summary
  = join Lit.nlnl
      [ Lit.h1 ++ t;
        Lit.outline_kw ++ seo_hint k;
        Lit.outline_structure;
        join Lit.nl
          [ Lit.h2 ++ Lit.sec_intro;
            Lit.h3 ++ t ++ Lit.sub_intro;
            Lit.p_intro_a ++ kt 0%Z ++ Lit.p_intro_b ];
        join Lit.nl
          [ Lit.h2 ++ Lit.sec_problem;
            Lit.h3 ++ Lit.ph_tone_hint ++ Lit.sub_problem;
            Lit.p_problem_a ++ Lit.ph_pain_points ++ Lit.p_problem_b
              ++ kt 1%Z ++ Lit.p_problem_c ];
        join Lit.nl
          [ Lit.h2 ++ Lit.sec_info;
            Lit.h3 ++ Lit.sub_info;
            Lit.p_info_a ++ Lit.ph_highlights ++ Lit.p_info_b ++ Lit.ph_wishes
              ++ Lit.p_info_c ++ kt 2%Z ++ Lit.p_info_d ];
        join Lit.nl
          [ Lit.h2 ++ Lit.sec_wrap;
            Lit.h3 ++ Lit.sub_wrap;
            Lit.p_wrap_a ++ kt 3%Z ++ Lit.p_wrap_b ++ Lit.ph_tone ++ Lit.p_wrap_c ] ] /\
  (last Lit.p_problem_a = Some QUOTE /\ head Lit.p_problem_b = Some QUOTE /\
   last Lit.p_info_a = Some QUOTE /\ head Lit.p_info_b = Some QUOTE /\
   last Lit.p_info_b = Some QUOTE /\ head Lit.p_info_c = Some QUOTE /\
   last Lit.p_wrap_b = Some QUOTE /\ head Lit.p_wrap_c = Some QUOTE) /\
  Forall (fun ph => ph <> [] /\ free_of [QUOTE] ph /\ free_of none_text ph)
         [Lit.ph_pain_points; Lit.ph_highlights; Lit.ph_wishes; Lit.ph_tone;
          Lit.ph_tone_hint] /\
  (free_of empty_quotes t -> Forall (free_of empty_quotes) kws ->
   free_of empty_quotes (generate g t kws empty_summary)) /\
  (free_of none_text t -> Forall (free_of none_text) kws ->
   free_of none_text (generate g t kws empty_summary)).
Proof.
  intros k kt. split; [reflexivity|]. split; [by repeat split|].
  split; [by repeat constructor|]. split.
  - apply generate_empty_free. by left.
  - apply generate_empty_free. by right.
Qed.

(** The witness of C8: an ordinary title and two keywords. *)
Lemma empty_summary_placeholders_witness :
  free_of empty_quotes (generate default_generator (lit "Test") [lit "Test"; lit "desc"]
                                 empty_summary) /\
  free_of none_text (generate default_generator (lit "Test") [lit "Test"; lit "desc"]
                              empty_summary).
Proof.
  pose proof (empty_summary_placeholders default_generator (lit "Test")
                [lit "Test"; lit "desc"]) as (_ & _ & _ & Hq & Hn).
  split.
  - apply Hq; [reflexivity | repeat constructor].
  - apply Hn; [reflexivity | repeat constructor].
Defined.

(** The title is copied into the post as it is: a title that reads
    None puts that text into the post, also with an empty comment
    summary. *)
Example none_title_is_copied :
  contains none_text (generate default_generator none_text [] empty_summary) = true.
Proof. vm_compute. reflexivity. Qed.

(** ** Section headings of the composed post *)

Lemma summary_strings_fields (P : str -> Prop) cs :
  Forall P (summary_strings cs) ->
  Forall P (highlights cs) /\ Forall P (pain_points cs) /\ Forall P (wishes cs) /\
  (forall s, tone cs = Some s -> P s).
Proof.
  unfold summary_strings. rewrite !Forall_app. intros (Hh & Hp & Hw & Ht).
  repeat split; try done. intros s Hs. rewrite Hs in Ht. by inversion Ht.
Qed.

Lemma generate_nonempty g t kws cs : generate g t kws cs <> [].
Proof.
  rewrite generate_blocks. unfold document_blocks. cbn [map join]. discriminate.
Qed.

Ltac filter_headings :=
  repeat first [ rewrite filter_bool_drop by reflexivity
               | rewrite filter_bool_keep by reflexivity ].

Lemma generate_heading_lines g t kws cs :
  single_line t -> Forall single_line kws -> Forall single_line (summary_strings cs) ->
  heading_lines (generate g t kws cs) = map (fun name => Lit.h2 ++ name) section_order.
Proof.
  intros Ht Hk Hcs.
  apply (clean_keywords_contains [LF]) in Hk.
  apply summary_strings_fields in Hcs as (Hh & Hp & Hw & Htone).
  assert (single_line (seo_hint (clean_keywords kws))) as Hseo
    by (apply seo_hint_free; done).
  assert (forall i, single_line
            (_scatter_keywords g (_keywords_for_section g (clean_keywords kws) i))) as Hkt.
  { intros i. apply scatter_keywords_free; try done.
    by apply keywords_for_section_free. }
  assert (forall items ph, free_of [LF] ph -> Forall single_line items ->
            single_line (py_or (join Lit.comma_sp (take 2 items)) ph)) as Hjoin
    by (intros; apply joined_insight_free; done).
  assert (forall ph, free_of [LF] ph -> single_line (tone_or (tone cs) ph)) as Hto
    by (intros; apply tone_or_free; done).
  unfold heading_lines. rewrite generate_blocks, lines_blocks; [| |done].
  - unfold document_blocks, section_lines. cbn [join app].
    filter_headings. reflexivity.
  - unfold document_blocks, section_lines.
    repeat (constructor; [split; [done|repeat constructor]|]); [..|constructor];
      unfold single_line, free_of in *; unfold_sections; split_contains;
      rewrite ?Ht, ?Hseo, ?Hkt, ?Hjoin, ?Hto by done; reflexivity.
Qed.

(** The headings that [generate] writes are lines of the post for
    every input. *)
Lemma generate_headings_present g t kws cs :
  [Lit.h2 ++ Lit.sec_intro; Lit.h2 ++ Lit.sec_problem;
   Lit.h2 ++ Lit.sec_info; Lit.h2 ++ Lit.sec_wrap]
    `sublist_of` heading_lines (generate g t kws cs).
Proof.
  unfold heading_lines.
  change [Lit.h2 ++ Lit.sec_intro; Lit.h2 ++ Lit.sec_problem;
          Lit.h2 ++ Lit.sec_info; Lit.h2 ++ Lit.sec_wrap]
    with (filter (fun l => starts_with Lit.h2 l = true)
            [Lit.h2 ++ Lit.sec_intro; Lit.h2 ++ Lit.sec_problem;
             Lit.h2 ++ Lit.sec_info; Lit.h2 ++ Lit.sec_wrap]).
  apply filter_sublist_mono.
  rewrite generate_blocks. unfold document_blocks, section_lines. cbn [map join].
  rewrite !lines_app_nlnl, !lines_app_nl.
  change (lines (Lit.h2 ++ Lit.sec_intro)) with [Lit.h2 ++ Lit.sec_intro].
  change (lines (Lit.h2 ++ Lit.sec_problem)) with [Lit.h2 ++ Lit.sec_problem].
  change (lines (Lit.h2 ++ Lit.sec_info)) with [Lit.h2 ++ Lit.sec_info].
  change (lines (Lit.h2 ++ Lit.sec_wrap)) with [Lit.h2 ++ Lit.sec_wrap].
  repeat first
    [ apply sublist_nil_l
    | apply sublist_skip
    | apply sublist_cons
    | apply sublist_inserts_l
    | rewrite <- app_assoc ].
Qed.

(** C1 (amended). For every title, keyword list and comment summary
    the composed post is a non-empty string in which the four section
    headings occur as lines, in the order introduction, problem
    framing, informative body, wrap-up. When none of the input strings
    contains a line feed, the lines of the post that begin with [## ]
    are exactly these four. *)
Theorem generate_four_headings
    (g : BlogPostGenerator) (t : str) (kws : list str) (cs : CommentSummary) :
  generate g t kws cs <> [] /\
  [Lit.h2 ++ Lit.sec_intro; Lit.h2 ++ Lit.sec_problem;
   Lit.h2 ++ Lit.sec_info; Lit.h2 ++ Lit.sec_wrap]
    `sublist_of` heading_lines (generate g t kws cs) /\
  (single_line t -> Forall single_line kws -> Forall single_line (summary_strings cs) ->
   heading_lines (generate g t kws cs)
     = [Lit.h2 ++ Lit.sec_intro; Lit.h2 ++ Lit.sec_problem;
        Lit.h2 ++ Lit.sec_info; Lit.h2 ++ Lit.sec_wrap]).
Proof.
  split; [apply generate_nonempty|]. split; [apply generate_headings_present|].
  intros Ht Hk Hcs. by rewrite generate_heading_lines.
Qed.

(** The witness of C1: a page title, three keywords and a summary
    with one entry in every field. *)
Lemma generate_four_headings_witness :
  length (heading_lines
            (generate default_generator (lit "Test")
                      [lit "Test"; lit "desc"; lit "more"] sample_summary)) = 4.
Proof.
  rewrite (proj2 (proj2 (generate_four_headings default_generator (lit "Test")
                           [lit "Test"; lit "desc"; lit "more"] sample_summary))).
  - reflexivity.
  - reflexivity.
  - repeat constructor.
  - repeat constructor.
Defined.

(** C1 as stated fails: a title with a line break in front of [## ]
    adds heading lines to the post (one in the outline, one in the
    subheading of the introduction). *)
Lemma two_line_title_counterexample :
  length (heading_lines (generate default_generator two_line_title [] empty_summary)) = 6 /\
  heading_lines (generate default_generator two_line_title [] empty_summary)
    <> [Lit.h2 ++ Lit.sec_intro; Lit.h2 ++ Lit.sec_problem;
        Lit.h2 ++ Lit.sec_info; Lit.h2 ++ Lit.sec_wrap].
Proof. split; [vm_compute; reflexivity | vm_compute; discriminate]. Qed.

(** ** The pipeline controller *)

Section Controller.
Context `{C : Collaborators}.

Lemma bind_emit {B} (e : Event) (k : M B) :
  (emit e ≫= fun _ => k) = (e :: trace k, outcome k).
Proof. by destruct k. Qed.

(** [parse_html] rejects an empty or whitespace-only source at once. *)
Lemma parse_html_blank source :
  is_blank source -> parse_html source = ([], inl ValueError).
Proof.
  intros Hb. apply strip_nil_iff in Hb. unfold parse_html.
  by rewrite Hb, orb_true_r.
Qed.

(** What [parse_html] does with a source that is not blank: at most
    one fetch, and a page only as [page_of_soup] of parsed markup. *)
Lemma parse_html_cases source :
  negb (truthy source) || negb (truthy (strip source)) = false ->
  (exists e, parse_html source = ([], inl e)) \/
  (exists e, parse_html source = ([EFetch source], inl e)) \/
  (exists soup, parse_html source = ([], inr (page_of_soup soup)) /\
                _is_url source = inr false /\ make_soup source = inr soup) \/
  (exists fetched soup, parse_html source = ([EFetch source], inr (page_of_soup soup)) /\
                _is_url source = inr true /\ http_get source = inr fetched /\
                make_soup fetched = inr soup).
Proof.
  intros Hb. unfold parse_html. rewrite Hb.
  destruct (_is_url source) as [e|[|]] eqn:Hu; simpl.
  - left. by exists e.
  - unfold _fetch_html, lift. destruct (http_get source) as [e|h] eqn:Hg; simpl.
    + right. left. by exists e.
    + destruct (make_soup h) as [e|soup] eqn:Hs; simpl.
      * right. left. by exists e.
      * right. right. right. by exists h, soup.
  - destruct (make_soup source) as [e|soup] eqn:Hs; simpl.
    + left. by exists e.
    + right. right. left. by exists soup.
Qed.

(** Apart from one possible fetch, [parse_html] calls nothing. *)
Lemma parse_html_trace source :
  trace (parse_html source) = [] \/ trace (parse_html source) = [EFetch source].
Proof.
  destruct (negb (truthy source) || negb (truthy (strip source))) eqn:Hb.
  - unfold parse_html. rewrite Hb. by left.
  - destruct (parse_html_cases source Hb)
      as [[e ->]|[[e ->]|[(soup & -> & _)|(h & soup & -> & _)]]]; auto.
Qed.

Lemma parse_html_page source tr page :
  parse_html source = (tr, inr page) -> exists soup, page = page_of_soup soup.
Proof.
  destruct (negb (truthy source) || negb (truthy (strip source))) eqn:Hb.
  - unfold parse_html. by rewrite Hb.
  - destruct (parse_html_cases source Hb)
      as [[e ->]|[[e ->]|[(soup & -> & _)|(h & soup & -> & _)]]]; try done;
      intros [= _ <-]; by exists soup.
Qed.

(** The title of a parsed page carries no surrounding whitespace. *)
Lemma parse_html_title source tr page :
  parse_html source = (tr, inr page) ->
  strip (opt_str (title page)) = opt_str (title page).
Proof.
  intros [soup ->]%parse_html_page. unfold page_of_soup. simpl.
  destruct (soup_title soup) as [[s|]|]; try done.
  destruct (truthy s); [apply strip_idem | done].
Qed.

Lemma generate_title_trace page cs :
  exists c, _generate_title page cs = ([ETitle c], inr (title_generate c)).
Proof.
  unfold _generate_title. destruct (truthy _); eexists; reflexivity.
Qed.

Lemma analyze_no_comments :
  _analyze_comments [] = ([], inr empty_summary).
Proof. reflexivity. Qed.

(** The run once the guard has passed and the page is parsed. *)
Lemma run_after_parse inp tr page :
  negb (opt_truthy (url inp)) && negb (opt_truthy (html inp)) = false ->
  parse_html (source_of inp) = (tr, inr page) ->
  run inp =
    (EParseHtml (source_of inp) :: tr ++
       trace (cs ← _analyze_comments (default [] (comments inp));
              t ← _generate_title page cs;
              mret (mkPipelineOutput page cs t
                      (generate default_generator t (_derive_keywords page t) cs))),
     outcome (cs ← _analyze_comments (default [] (comments inp));
              t ← _generate_title page cs;
              mret (mkPipelineOutput page cs t
                      (generate default_generator t (_derive_keywords page t) cs)))).
Proof.
  intros Hg Hp. unfold run. rewrite Hg. cbv zeta. rewrite bind_emit.
  rewrite Hp. simpl. by destruct (_ ≫= _).
Qed.

Lemma run_parse_error inp tr e :
  negb (opt_truthy (url inp)) && negb (opt_truthy (html inp)) = false ->
  parse_html (source_of inp) = (tr, inl e) ->
  run inp = (EParseHtml (source_of inp) :: tr, inl e).
Proof.
  intros Hg Hp. unfold run. rewrite Hg. cbv zeta. rewrite bind_emit.
  by rewrite Hp.
Qed.

End Controller.

Section ControllerProperties.
Context `{C : Collaborators}.

Lemma guard_false_iff inp :
  negb (opt_truthy (url inp)) && negb (opt_truthy (html inp)) = false <->
  opt_truthy (url inp) = true \/ opt_truthy (html inp) = true.
Proof. destruct (opt_truthy (url inp)), (opt_truthy (html inp)); simpl; intuition. Qed.

(** C6 (amended). When neither a URL nor markup is supplied the run
    fails with [ValueError] before any call is made. When the chosen
    source is whitespace only, the controller does call [parse_html],
    which rejects the source with [ValueError] before it fetches or
    parses anything; the comment analyzer and the title generator are
    not called. *)
Theorem run_invalid_input (inp : PipelineInput) :
  (opt_truthy (url inp) = false -> opt_truthy (html inp) = false ->
   run inp = ([], inl ValueError)) /\
  (opt_truthy (url inp) = true \/ opt_truthy (html inp) = true ->
   is_blank (source_of inp) ->
   run inp = ([EParseHtml (source_of inp)], inl ValueError)).
Proof.
  split.
  - intros Hu Hh. unfold run. by rewrite Hu, Hh.
  - intros Hg%guard_false_iff Hb.
    apply run_parse_error; [exact Hg | by apply parse_html_blank].
Qed.

(** C5. A run without comments ([None] or an empty list) never calls
    the comment analyzer, and the comment summary of its result has
    empty highlights, pain points and wishes and no tone. *)
Theorem run_without_comments (inp : PipelineInput) :
  comments inp = None \/ comments inp = Some [] ->
  Forall (fun e => ~ is_summarize e) (trace (run inp)) /\
  forall out, outcome (run inp) = inr out -> comment_summary out = empty_summary.
Proof.
  intros Hc.
  assert (default [] (comments inp) = []) as Hd by (destruct Hc as [-> | ->]; done).
  destruct (negb (opt_truthy (url inp)) && negb (opt_truthy (html inp))) eqn:Hg.
  - unfold run. rewrite Hg. split; [constructor | done].
  - destruct (parse_html (source_of inp)) as [tr [e|page]] eqn:Hp.
    + rewrite (run_parse_error _ _ _ Hg Hp). split; [|done].
      constructor; [by intros []|].
      pose proof (parse_html_trace (source_of inp)) as Ht. rewrite Hp in Ht.
      destruct Ht as [Ht|Ht]; simpl in Ht; subst tr; repeat constructor. by intros [].
    + rewrite (run_after_parse _ _ _ Hg Hp), Hd, analyze_no_comments.
      destruct (generate_title_trace page empty_summary) as [c Hc'].
      simpl. rewrite Hc'. simpl. split.
      * constructor; [by intros []|]. apply Forall_app. split; [|repeat constructor; by intros []].
        pose proof (parse_html_trace (source_of inp)) as Ht. rewrite Hp in Ht.
        destruct Ht as [Ht|Ht]; simpl in Ht; subst tr; repeat constructor. by intros [].
      * by intros out [= <-].
Qed.

(** C9. For a page that [parse_html] returned: when its title is not
    empty the title generator is called with that title, the meta
    description and the three insight sequences and without the body
    text; when the title is empty or absent it is called with an empty
    base title, the same fields and the body text of the page. In a
    run this call is the last one the controller makes. *)
Theorem generate_title_call (source : str) (tr : list Event) (page : ParsedPage)
    (cs : CommentSummary) :
  parse_html source = (tr, inr page) ->
  _generate_title page cs
    = ([ETitle (title_call page cs)], inr (title_generate (title_call page cs))) /\
  forall inp tr',
    source = source_of inp ->
    opt_truthy (url inp) = true \/ opt_truthy (html inp) = true ->
    _analyze_comments (default [] (comments inp)) = (tr', inr cs) ->
    trace (run inp) = EParseHtml source :: tr ++ tr' ++ [ETitle (title_call page cs)].
Proof.
  intros Hp.
  assert (_generate_title page cs
          = ([ETitle (title_call page cs)], inr (title_generate (title_call page cs)))) as Ht.
  { unfold _generate_title, title_call. rewrite (parse_html_title _ _ _ Hp).
    by destruct (title page) as [[|c t]|]. }
  split; [exact Ht|].
  intros inp tr' -> Hg%guard_false_iff Ha.
  rewrite (run_after_parse _ _ _ Hg Hp), Ha. simpl. by rewrite Ht.
Qed.

Lemma run_analyzer_error inp cmts e tr page :
  comments inp = Some cmts ->
  _analyze_comments cmts = ([ESummarize cmts], inl e) ->
  negb (opt_truthy (url inp)) && negb (opt_truthy (html inp)) = false ->
  parse_html (source_of inp) = (tr, inr page) ->
  run inp = (EParseHtml (source_of inp) :: tr ++ [ESummarize cmts], inl e).
Proof.
  intros Hc Ha Hg Hp. rewrite (run_after_parse _ _ _ Hg Hp), Hc. simpl default.
  by rewrite Ha.
Qed.

(** C2 (amended). With comments supplied, the analyzer is called once
    and its answer is normalised: a [CommentSummary] is returned
    unchanged; a [dict] whose entries for the four fields have the
    field types (lists of strings; a string or [None] for the tone) is
    converted field by field, a missing key giving the empty sequence
    (no tone for the tone key); any other answer makes the run fail
    with [TypeError], so that it produces no result. *)
Theorem analyze_comments_normalizes (cmts : list str) :
  cmts <> [] ->
  (forall cs, summarize cmts = ASummary cs ->
     _analyze_comments cmts = ([ESummarize cmts], inr cs)) /\
  (forall d, summarize cmts = ADict d -> dict_well_typed d ->
     _analyze_comments cmts =
       ([ESummarize cmts],
        inr {| highlights := dict_list d Key.highlights;
               pain_points := dict_list d Key.pain_points;
               wishes := dict_list d Key.wishes;
               tone := dict_tone d |})) /\
  (forall (d : gmap (list N) PyVal) k, d !! k = None -> dict_list d k = []) /\
  (forall d : gmap (list N) PyVal, d !! Key.tone = None -> dict_tone d = None) /\
  (forall v, summarize cmts = AOther v ->
     _analyze_comments cmts = ([ESummarize cmts], inl TypeError) /\
     forall inp, comments inp = Some cmts ->
       (forall out, outcome (run inp) <> inr out) /\
       (forall tr page,
          opt_truthy (url inp) = true \/ opt_truthy (html inp) = true ->
          parse_html (source_of inp) = (tr, inr page) ->
          run inp = (EParseHtml (source_of inp) :: tr ++ [ESummarize cmts], inl TypeError))).
Proof.
  intros Hne. destruct cmts as [|c0 cmts']; [done|].
  split; [|split; [|split; [|split]]].
  - intros cs Hs. unfold _analyze_comments. by rewrite Hs.
  - intros d Hs (Hh & Hp & Hw & Ht). unfold _analyze_comments. rewrite Hs.
    unfold list_entry, tone_entry, dict_list, dict_tone in *.
    destruct (d !! Key.highlights) as [[]|]; try done;
      destruct (d !! Key.pain_points) as [[]|]; try done;
      destruct (d !! Key.wishes) as [[]|]; try done;
      destruct (d !! Key.tone) as [[]|]; done.
  - intros d k Hk. unfold dict_list. by rewrite Hk.
  - intros d Hk. unfold dict_tone. by rewrite Hk.
  - intros v Hs.
    assert (_analyze_comments (c0 :: cmts') = ([ESummarize (c0 :: cmts')], inl TypeError)) as Ha
      by (unfold _analyze_comments; by rewrite Hs).
    split; [exact Ha|]. intros inp Hc. split.
    + intros out.
      destruct (negb (opt_truthy (url inp)) && negb (opt_truthy (html inp))) eqn:Hg.
      * unfold run. by rewrite Hg.
      * destruct (parse_html (source_of inp)) as [tr [e|page]] eqn:Hp.
        -- by rewrite (run_parse_error _ _ _ Hg Hp).
        -- by rewrite (run_analyzer_error _ _ _ _ _ Hc Ha Hg Hp).
    + intros tr page Hg%guard_false_iff Hp. by apply (run_analyzer_error _ _ _ _ page).
Qed.

End ControllerProperties.

(** The witness of C6: no source at all, and a URL of three spaces. *)
Lemma run_invalid_input_witness :
  run (C := sample_collaborators (AOther VNone))
      {| url := None; html := Some []; youtube_video_id := None; comments := None |}
    = ([], inl ValueError) /\
  run (C := sample_collaborators (AOther VNone)) blank_url_input
    = ([EParseHtml (lit "   ")], inl ValueError).
Proof.
  split.
  - apply (proj1 (run_invalid_input (C := sample_collaborators (AOther VNone)) _));
      reflexivity.
  - apply (proj2 (run_invalid_input (C := sample_collaborators (AOther VNone))
                    blank_url_input)).
    + left. reflexivity.
    + repeat constructor.
Defined.

(** C6 as stated fails: with a URL of three spaces the run does fail
    with [ValueError], but [parse_html] has been called. *)
Lemma blank_url_counterexample :
  outcome (run (C := sample_collaborators (AOther VNone)) blank_url_input) = inl ValueError /\
  trace (run (C := sample_collaborators (AOther VNone)) blank_url_input)
    = [EParseHtml (lit "   ")] /\
  trace (run (C := sample_collaborators (AOther VNone)) blank_url_input) <> [].
Proof. repeat split. discriminate. Qed.

(** The witness of C5: markup with a title and no comments, next to an
    analyzer that would answer with an integer. *)
Lemma run_without_comments_witness :
  Forall (fun e => ~ is_summarize e)
         (trace (run (C := sample_collaborators (AOther (VInt 7))) (markup_input None))) /\
  exists out,
    outcome (run (C := sample_collaborators (AOther (VInt 7))) (markup_input None)) = inr out /\
    comment_summary out = empty_summary.
Proof.
  destruct (run_without_comments (C := sample_collaborators (AOther (VInt 7)))
              (markup_input None) (or_introl eq_refl)) as [Ht Ho].
  split; [exact Ht|].
  eexists. split; [reflexivity|]. apply Ho. reflexivity.
Defined.

(** The witness of C9: the sample page has the title Test. *)
Lemma generate_title_call_witness :
  _generate_title (C := sample_collaborators (AOther VNone))
      {| title := Some (lit "Test"); meta_description := Some (lit "desc");
         body_text := lit "body" |} sample_summary
  = ([ETitle {| arg_base_title := lit "Test"; arg_meta_description := lit "desc";
                arg_highlights := [lit "great tips"]; arg_pain_points := [lit "too long"];
                arg_wishes := [lit "want video"]; arg_body_text := None |}],
     inr (lit "Test")).
Proof.
  exact (proj1 (generate_title_call (C := sample_collaborators (AOther VNone))
                  (lit "<title>Test</title>") []
                  {| title := Some (lit "Test"); meta_description := Some (lit "desc");
                     body_text := lit "body" |} sample_summary eq_refl)).
Defined.

(** The witness of C2: a [dict] that only has highlights, and an
    integer answer. *)
Lemma analyze_comments_normalizes_witness :
  _analyze_comments (C := sample_collaborators (ADict sample_dict)) [lit "great tips"]
    = ([ESummarize [lit "great tips"]],
       inr {| highlights := [lit "great tips"]; pain_points := []; wishes := [];
              tone := None |}) /\
  run (C := sample_collaborators (AOther (VInt 7))) (markup_input (Some [lit "great tips"]))
    = ([EParseHtml (lit "<title>Test</title>"); ESummarize [lit "great tips"]],
       inl TypeError).
Proof.
  split.
  - destruct (analyze_comments_normalizes (C := sample_collaborators (ADict sample_dict))
                [lit "great tips"]) as (_ & Hd & _); [discriminate|].
    rewrite (Hd sample_dict eq_refl); [reflexivity|].
    repeat split.
  - destruct (analyze_comments_normalizes (C := sample_collaborators (AOther (VInt 7)))
                [lit "great tips"]) as (_ & _ & _ & _ & Ho); [discriminate|].
    destruct (Ho (VInt 7) eq_refl) as [_ Hrun].
    destruct (Hrun (markup_input (Some [lit "great tips"])) eq_refl) as [_ Hr].
    rewrite (Hr [] {| title := Some (lit "Test"); meta_description := Some (lit "desc");
                      body_text := lit "body" |}); [reflexivity | right; reflexivity | reflexivity].
Defined.

(** C2 as stated fails: a [dict] is not always converted. With [None]
    under the highlights key, [list] raises and the run ends with
    [TypeError] instead of a comment summary. *)
Lemma none_entry_counterexample :
  _analyze_comments (C := sample_collaborators (ADict none_highlights_dict))
                    [lit "great tips"]
    = ([ESummarize [lit "great tips"]], inl TypeError) /\
  outcome (run (C := sample_collaborators (ADict none_highlights_dict))
               (markup_input (Some [lit "great tips"])))
    = inl TypeError.
Proof. split; vm_compute; reflexivity. Qed.

(** Sample runs: a page without a title and three comments; a URL
    whose fetch fails. *)
Example run_untitled_sample :
  trace (run (C := collaborators_of untitled_soup (ASummary sample_summary))
             (markup_input (Some [lit "great tips"; lit "too long"; lit "want video"])))
  = [EParseHtml (lit "<title>Test</title>");
     ESummarize [lit "great tips"; lit "too long"; lit "want video"];
     ETitle {| arg_base_title := []; arg_meta_description := [];
               arg_highlights := [lit "great tips"]; arg_pain_points := [lit "too long"];
               arg_wishes := [lit "want video"]; arg_body_text := Some (lit "body") |}].
Proof. vm_compute. reflexivity. Qed.

Example run_fetch_failure_sample :
  run (C := sample_collaborators (ASummary sample_summary))
      {| url := Some (lit "https://example.com/post"); html := None;
         youtube_video_id := None; comments := Some [lit "great tips"] |}
  = ([EParseHtml (lit "https://example.com/post"); EFetch (lit "https://example.com/post")],
     inl RequestException).
Proof. vm_compute. reflexivity. Qed.

(** * Further properties of the post generator *)

(** ** Layout of the post *)

Lemma document_blocks_single_line g t kws cs :
  single_line t -> Forall single_line kws -> Forall single_line (summary_strings cs) ->
  Forall (fun b => b <> [] /\ Forall single_line b) (document_blocks g t kws cs).
Proof.
  intros Ht Hk Hcs.
  apply (clean_keywords_contains [LF]) in Hk.
  apply summary_strings_fields in Hcs as (Hh & Hp & Hw & Htone).
  assert (single_line (seo_hint (clean_keywords kws))) as Hseo
    by (apply seo_hint_free; done).
  assert (forall i, single_line
            (_scatter_keywords g (_keywords_for_section g (clean_keywords kws) i))) as Hkt.
  { intros i. apply scatter_keywords_free; try done.
    by apply keywords_for_section_free. }
  assert (forall items ph, free_of [LF] ph -> Forall single_line items ->
            single_line (py_or (join Lit.comma_sp (take 2 items)) ph)) as Hjoin
    by (intros; apply joined_insight_free; done).
  assert (forall ph, free_of [LF] ph -> single_line (tone_or (tone cs) ph)) as Hto
    by (intros; apply tone_or_free; done).
  unfold document_blocks, section_lines.
  repeat (constructor; [split; [done|repeat constructor]|]); [..|constructor];
    unfold single_line, free_of in *; unfold_sections; split_contains;
    rewrite ?Ht, ?Hseo, ?Hkt, ?Hjoin, ?Hto by done; reflexivity.
Qed.

(** X1. When no input string contains a line feed, the post consists
    of 21 lines: the three outline lines, each followed by one empty
    line, then for each of the four sections its heading, its
    subheading and its paragraph on consecutive lines, the sections
    separated by one empty line. *)
Theorem generate_layout (g : BlogPostGenerator) (t : str) (kws : list str)
    (cs : CommentSummary) :
  single_line t -> Forall single_line kws -> Forall single_line (summary_strings cs) ->
  let k := clean_keywords kws in
  let block name i :=
    [Lit.h2 ++ name; Lit.h3 ++ _build_subheading name t cs;
     _build_paragraph g name (_keywords_for_section g k i) cs] in
  lines (generate g t kws cs)
    = [Lit.h1 ++ t; []; Lit.outline_kw ++ seo_hint k; []; Lit.outline_structure; []]
        ++ block Lit.sec_intro 0%Z ++ [[]] ++ block Lit.sec_problem 1%Z ++ [[]]
        ++ block Lit.sec_info 2%Z ++ [[]] ++ block Lit.sec_wrap 3%Z /\
  length (lines (generate g t kws cs)) = 21.
Proof.
  intros Ht Hk Hcs k block.
  assert (lines (generate g t kws cs) = join [[]] (document_blocks g t kws cs)) as E.
  { rewrite generate_blocks. apply lines_blocks; [|done].
    by apply document_blocks_single_line. }
  rewrite E. split; [reflexivity|].
  unfold document_blocks, section_lines. cbn [join app length]. reflexivity.
Qed.

Lemma generate_layout_witness :
  length (lines (generate default_generator (lit "Test") [lit "Test"; lit "desc"]
                          sample_summary)) = 21.
Proof.
  apply (generate_layout default_generator (lit "Test") [lit "Test"; lit "desc"]
           sample_summary).
  - reflexivity.
  - repeat constructor.
  - repeat constructor.
Defined.

(** ** What the post depends on *)

Lemma generate_ext g t kws cs cs' :
  (forall name ks, _build_section g name t ks cs = _build_section g name t ks cs') ->
  generate g t kws cs = generate g t kws cs'.
Proof.
  intros H. rewrite !generate_blocks. unfold document_blocks, section_lines.
  cbn [map]. change (fun name ks c =>
    join Lit.nl [Lit.h2 ++ name; Lit.h3 ++ _build_subheading name t c;
                 _build_paragraph g name ks c]) with (fun name ks c => _build_section g name t ks c) in *.
  pose proof (fun name ks => H name ks) as H'. unfold _build_section in H'.
  by rewrite !H'.
Qed.

(** X2. Only the first two highlights, pain points and wishes of a
    comment summary reach the post. *)
Theorem generate_uses_two_of_each (g : BlogPostGenerator) (t : str) (kws : list str)
    (cs : CommentSummary) :
  generate g t kws cs
  = generate g t kws {| highlights := take 2 (highlights cs);
                        pain_points := take 2 (pain_points cs);
                        wishes := take 2 (wishes cs);
                        tone := tone cs |}.
Proof.
  apply generate_ext. intros name ks.
  unfold _build_section, _build_subheading, _build_paragraph. simpl.
  by rewrite !take_take.
Qed.

(** X3. Insight values that are false in a condition count as absent:
    an empty tone renders like no tone, and a field whose only entry
    is the empty string renders like an empty field. *)
Theorem generate_falsy_insight (g : BlogPostGenerator) (t : str) (kws : list str)
    (h p w : list str) (o : option str) :
  generate g t kws {| highlights := h; pain_points := p; wishes := w; tone := Some [] |}
    = generate g t kws {| highlights := h; pain_points := p; wishes := w; tone := None |} /\
  generate g t kws {| highlights := [[]]; pain_points := p; wishes := w; tone := o |}
    = generate g t kws {| highlights := []; pain_points := p; wishes := w; tone := o |} /\
  generate g t kws {| highlights := h; pain_points := [[]]; wishes := w; tone := o |}
    = generate g t kws {| highlights := h; pain_points := []; wishes := w; tone := o |} /\
  generate g t kws {| highlights := h; pain_points := p; wishes := [[]]; tone := o |}
    = generate g t kws {| highlights := h; pain_points := p; wishes := []; tone := o |}.
Proof.
  repeat split; apply generate_ext; intros name ks; reflexivity.
Qed.

(** ** Keywords that reach the post *)

Lemma clean_keywords_fix l :
  Forall (fun k => ~ is_blank k /\ strip k = k) l -> clean_keywords l = l.
Proof.
  intros H. rewrite clean_keywords_eq.
  induction H as [|k r [Hnb Hs] _ IH]; [done|].
  rewrite filter_cons_True by done. simpl. by rewrite Hs, IH.
Qed.

Lemma py_slice_take {A} (l : list A) (m : nat) (a b : Z) :
  (0 <= a)%Z -> (a <= b)%Z -> Z.to_nat b <= m ->
  py_slice (take m l) a b = py_slice l a b.
Proof.
  intros Ha Hb Hm. rewrite !py_slice_nonneg by done.
  rewrite !take_drop_commute, take_take. do 2 f_equal. lia.
Qed.

Lemma keywords_for_section_take g (l : list str) (m : nat) (i : Z) :
  (0 < keywords_per_section g)%Z -> (0 <= i)%Z ->
  Z.to_nat ((i + 1) * keywords_per_section g) <= m ->
  _keywords_for_section g (take m l) i = _keywords_for_section g l i.
Proof.
  intros Hpos Hi Hm. unfold _keywords_for_section.
  rewrite !(py_slice_take l m) by nia. done.
Qed.

Lemma seo_hint_take (l : list str) (m : nat) :
  3 <= m -> seo_hint (take m l) = seo_hint l.
Proof.
  intros Hm. unfold seo_hint. rewrite take_take, Nat.min_l by done.
  destruct l as [|x l]; [by rewrite take_nil|].
  destruct m; [lia | done].
Qed.

(** X4. With a positive chunk size [n], the post is determined by the
    first [max 3 (4 * n)] sanitised keywords; with the default
    generator these are the first eight, so that of the twelve
    keywords the pipeline may derive the last four never reach the
    post. *)
Theorem generate_uses_leading_keywords (g : BlogPostGenerator) (t : str)
    (kws : list str) (cs : CommentSummary) :
  (0 < keywords_per_section g)%Z ->
  let n := Z.to_nat (keywords_per_section g) in
  generate g t kws cs = generate g t (take (Nat.max 3 (4 * n)) (clean_keywords kws)) cs.
Proof.
  intros Hpos n. rewrite !generate_blocks. unfold document_blocks.
  rewrite (clean_keywords_fix (take _ _)) by apply Forall_take, clean_keywords_clean.
  rewrite seo_hint_take by lia.
  rewrite !keywords_for_section_take by (unfold n; lia).
  done.
Qed.

Lemma generate_uses_leading_keywords_witness :
  generate default_generator (lit "Test") nine_keywords empty_summary
  = generate default_generator (lit "Test") (take 8 nine_keywords) empty_summary.
Proof.
  rewrite (generate_uses_leading_keywords default_generator (lit "Test")
             nine_keywords empty_summary eq_refl).
  reflexivity.
Defined.

Lemma keywords_for_section_exact g (kws : list str) (i : nat) :
  (0 < keywords_per_section g)%Z ->
  (i + 1) * Z.to_nat (keywords_per_section g) <= length kws ->
  _keywords_for_section g kws (Z.of_nat i)
    = take (Z.to_nat (keywords_per_section g)) (drop (i * Z.to_nat (keywords_per_section g)) kws)
  /\ length (_keywords_for_section g kws (Z.of_nat i)) = Z.to_nat (keywords_per_section g).
Proof.
  intros Hpos Hlen. set (n := Z.to_nat (keywords_per_section g)) in *.
  assert (length (take n (drop (i * n) kws)) = n) as Hn
    by (rewrite length_take, length_drop; lia).
  assert (_keywords_for_section g kws (Z.of_nat i) = take n (drop (i * n) kws)) as E.
  { unfold _keywords_for_section. rewrite py_slice_nonneg by nia.
    replace (Z.to_nat (Z.of_nat i * keywords_per_section g + keywords_per_section g
                       - Z.of_nat i * keywords_per_section g)) with n by (unfold n; lia).
    replace (Z.to_nat (Z.of_nat i * keywords_per_section g)) with (i * n)
      by (unfold n; nia).
    destruct (take n (drop (i * n) kws)) eqn:E; [|done].
    simpl in Hn. unfold n in Hn. lia. }
  by rewrite E.
Qed.

(** X5. With a positive chunk size [n] and at least [4 * n] keywords,
    the four sections get consecutive, non-overlapping chunks of
    exactly [n] keywords: put one after the other they are the first
    [4 * n] keywords, and no section falls back to the first chunk. *)
Theorem keyword_chunks_partition (g : BlogPostGenerator) (kws : list str) :
  (0 < keywords_per_section g)%Z ->
  let n := Z.to_nat (keywords_per_section g) in
  4 * n <= length kws ->
  _keywords_for_section g kws 0 ++ _keywords_for_section g kws 1
    ++ _keywords_for_section g kws 2 ++ _keywords_for_section g kws 3
  = take (4 * n) kws /\
  Forall (fun i => length (_keywords_for_section g kws i) = n) [0; 1; 2; 3]%Z.
Proof.
  intros Hpos n Hlen.
  destruct (keywords_for_section_exact g kws 0 Hpos) as [E0 L0]; [fold n; lia|].
  destruct (keywords_for_section_exact g kws 1 Hpos) as [E1 L1]; [fold n; lia|].
  destruct (keywords_for_section_exact g kws 2 Hpos) as [E2 L2]; [fold n; lia|].
  destruct (keywords_for_section_exact g kws 3 Hpos) as [E3 L3]; [fold n; lia|].
  fold n in E0, E1, E2, E3, L0, L1, L2, L3.
  change (Z.of_nat 0) with 0%Z in *. change (Z.of_nat 1) with 1%Z in *.
  change (Z.of_nat 2) with 2%Z in *. change (Z.of_nat 3) with 3%Z in *.
  split; [|by repeat constructor].
  rewrite E0, E1, E2, E3. rewrite drop_0.
  replace (1 * n) with n by lia. replace (2 * n) with (n + n) by lia.
  replace (3 * n) with (n + n + n) by lia.
  rewrite !app_assoc, !take_take_drop. f_equal. lia.
Qed.

Lemma keyword_chunks_partition_witness :
  _keywords_for_section default_generator nine_keywords 0
    ++ _keywords_for_section default_generator nine_keywords 1
    ++ _keywords_for_section default_generator nine_keywords 2
    ++ _keywords_for_section default_generator nine_keywords 3
  = take 8 nine_keywords.
Proof.
  apply (proj1 (keyword_chunks_partition default_generator nine_keywords eq_refl
                  ltac:(vm_compute; lia))).
Defined.

(** ** What the post mentions *)

Lemma starts_with_self pat s : starts_with pat (pat ++ s) = true.
Proof. induction pat as [|p pat IH]; [done|]. simpl. by rewrite N.eqb_refl, IH. Qed.

Lemma contains_refl pat : contains pat pat = true.
Proof.
  pose proof (starts_with_self pat []) as H. rewrite app_nil_r in H.
  destruct pat; simpl in *; [done|]. by rewrite H.
Qed.

Lemma occurs_l pat a b : contains pat a = true -> contains pat (a ++ b) = true.
Proof.
  intros H. destruct (contains pat (a ++ b)) eqn:E; [done|].
  apply contains_prefix in E. congruence.
Qed.

Lemma occurs_r pat a b : contains pat b = true -> contains pat (a ++ b) = true.
Proof.
  intros H. destruct (contains pat (a ++ b)) eqn:E; [done|].
  apply contains_suffix in E. congruence.
Qed.

Lemma contains_empty s : contains [] s = true.
Proof. by destruct s. Qed.

Lemma occurs_join pat sep (parts : list str) :
  pat ∈ parts -> contains pat (join sep parts) = true.
Proof.
  induction parts as [|p r IH]; [by intros ?%elem_of_nil|].
  intros [->|Hin]%elem_of_cons.
  - destruct r; [apply contains_refl|]. apply occurs_l, contains_refl.
  - destruct r as [|p' r']; [by apply elem_of_nil in Hin|].
    change (join sep (p :: p' :: r')) with (p ++ sep ++ join sep (p' :: r')).
    by apply occurs_r, occurs_r, IH.
Qed.

Lemma join_nil_elem sep (parts : list str) x :
  sep <> [] -> join sep parts = [] -> x ∈ parts -> x = [].
Proof.
  intros Hsep. destruct parts as [|p [|p' r]]; simpl.
  - by intros _ ?%elem_of_nil.
  - intros -> Hx. apply elem_of_cons in Hx as [->|Hx]; [done|]. by apply elem_of_nil in Hx.
  - intros E. apply app_eq_nil in E as [_ E]. apply app_eq_nil in E as [E _]. done.
Qed.

Lemma occurs_joined_insight (items : list str) ph x :
  x ∈ take 2 items -> contains x (py_or (join Lit.comma_sp (take 2 items)) ph) = true.
Proof.
  intros Hx. unfold py_or. destruct (join Lit.comma_sp (take 2 items)) eqn:E.
  - assert (Lit.comma_sp <> []) as Hsep by discriminate.
    rewrite (join_nil_elem _ _ _ Hsep E Hx). apply contains_empty.
  - simpl truthy. cbv iota. rewrite <- E. by apply occurs_join.
Qed.

Lemma occurs_tone (s ph : str) : contains s (tone_or (Some s) ph) = true.
Proof.
  simpl. unfold py_or. destruct s; [apply contains_empty | apply contains_refl].
Qed.

Lemma occurs_seo_hint k (ks : list str) : k ∈ take 3 ks -> contains k (seo_hint ks) = true.
Proof.
  intros Hk. unfold seo_hint. destruct ks as [|x r]; [by apply elem_of_nil in Hk|].
  by apply occurs_join.
Qed.

(** Look for an occurrence inside a concatenation. *)
Ltac find_occurrence tac :=
  first [ tac
        | apply occurs_l; find_occurrence tac
        | apply occurs_r; find_occurrence tac ].

(** X6. The post carries its inputs verbatim: the title, each of the
    first three sanitised keywords, each of the first two highlights,
    pain points and wishes, and the tone when there is one all occur
    in the text. *)
Theorem generate_mentions_inputs (g : BlogPostGenerator) (t : str) (kws : list str)
    (cs : CommentSummary) :
  contains t (generate g t kws cs) = true /\
  (forall k, k ∈ take 3 (clean_keywords kws) -> contains k (generate g t kws cs) = true) /\
  (forall x, x ∈ take 2 (highlights cs) ++ take 2 (pain_points cs) ++ take 2 (wishes cs) ->
     contains x (generate g t kws cs) = true) /\
  (forall s, tone cs = Some s -> contains s (generate g t kws cs) = true).
Proof.
  rewrite generate_blocks. unfold document_blocks, section_lines.
  cbn [map join]. unfold_sections.
  split; [|split; [|split]].
  - find_occurrence ltac:(apply contains_refl).
  - intros k Hk. find_occurrence ltac:(by apply occurs_seo_hint).
  - intros x Hx. rewrite !elem_of_app in Hx. destruct Hx as [Hx|[Hx|Hx]];
      find_occurrence ltac:(by apply occurs_joined_insight).
  - intros s Hs. rewrite Hs. find_occurrence ltac:(apply occurs_tone).
Qed.

Lemma generate_mentions_inputs_witness :
  contains (lit "too long")
           (generate default_generator (lit "Test") [lit "Test"] sample_summary) = true.
Proof.
  apply (proj1 (proj2 (proj2 (generate_mentions_inputs default_generator (lit "Test")
                                [lit "Test"] sample_summary)))).
  apply list_elem_of_In. vm_compute. right. left. reflexivity.
Defined.

(** * Further properties of the keyword deriver *)

Lemma token_not_blank k : is_token k -> ~ is_blank k /\ strip k = k.
Proof.
  intros [Hne Hs]. split; [|by apply strip_no_space].
  destruct k as [|c k]; [done|]. intros Hb.
  inversion Hs; inversion Hb; congruence.
Qed.

(** X7. Every derived keyword is a non-empty text without whitespace
    and without any of the punctuation characters, so the sanitising
    step of [generate] leaves a derived keyword list as it is. *)
Theorem derived_keywords_are_tokens (page : ParsedPage) (t : str) :
  Forall (fun k => k <> [] /\ no_space k /\ no_punct k) (_derive_keywords page t) /\
  clean_keywords (_derive_keywords page t) = _derive_keywords page t.
Proof.
  pose proof (derive_keywords_tokens page t) as H. split.
  - eapply Forall_impl; [exact H|]. by intros k [[? ?] ?].
  - apply clean_keywords_fix. eapply Forall_impl; [exact H|].
    intros k [Hk _]. by apply token_not_blank.
Qed.

Lemma split_go_at_space a : forall cur c b,
  is_space c = true ->
  split_go cur (a ++ c :: b) = split_go cur a ++ split_go [] b.
Proof.
  induction a as [|x a IH]; intros cur c b Hc; simpl.
  - rewrite Hc. by destruct cur.
  - destruct (is_space x).
    + destruct cur; rewrite IH by done; done.
    + by apply IH.
Qed.

Lemma blank_out_separator c :
  is_space c = true \/ is_punct c = true -> is_space (blank_out c) = true.
Proof.
  intros [H|H]; unfold blank_out; destruct (is_punct c) eqn:E; try done; congruence.
Qed.

(** X8. A whitespace or punctuation character between two texts
    separates their tokens: the tokens of the whole are the tokens of
    the first text followed by those of the second. Hence deriving
    keywords from a title and a meta description is deriving them
    from the two texts joined by one space. *)
Theorem tokenize_at_separator (a b : str) (c : char) :
  is_space c = true \/ is_punct c = true ->
  _tokenize_ko_simple (a ++ c :: b) = _tokenize_ko_simple a ++ _tokenize_ko_simple b /\
  forall page t0 body,
    meta_description page = Some b ->
    _derive_keywords page a
    = _derive_keywords {| title := t0; meta_description := None; body_text := body |}
                       (a ++ SPACE :: b).
Proof.
  intros Hc.
  assert (forall x y d, is_space d = true \/ is_punct d = true ->
            _tokenize_ko_simple (x ++ d :: y) = _tokenize_ko_simple x ++ _tokenize_ko_simple y)
    as Htok.
  { intros x y d Hd. rewrite !tokenize_split, map_app. simpl map.
    unfold split. by rewrite split_go_at_space by by apply blank_out_separator. }
  split; [by apply Htok|].
  intros page t0 body Hm. rewrite !derive_keywords_eq, Hm. simpl opt_str.
  rewrite tokenize_nil, app_nil_r. by rewrite Htok by by left.
Qed.

Lemma tokenize_at_separator_witness :
  _tokenize_ko_simple (lit "blog tips" ++ 44%N :: lit "for you")
  = [lit "blog"; lit "tips"; lit "for"; lit "you"].
Proof.
  rewrite (proj1 (tokenize_at_separator (lit "blog tips") (lit "for you") 44%N
                    (or_intror eq_refl))).
  reflexivity.
Defined.

(** X9. Tokenising is stable: joining the tokens of a text with
    single spaces and tokenising again gives the same tokens. *)
Theorem tokenize_round_trip (text : str) :
  _tokenize_ko_simple (join [SPACE] (_tokenize_ko_simple text)) = _tokenize_ko_simple text.
Proof. apply tokenize_join, tokenize_tokens. Qed.

Lemma dedup_first_app (a b : list str) :
  dedup_first (a ++ b) = dedup_first a ++ filter (fun y => y ∉ a) (dedup_first b).
Proof.
  induction a as [|x a IH]; simpl.
  - symmetry. apply filter_all, Forall_forall. intros y _. apply not_elem_of_nil.
  - rewrite IH, filter_app, list_filter_filter. do 2 f_equal.
    apply list_filter_iff. intros y. rewrite not_elem_of_cons. tauto.
Qed.

(** X10. The meta description only appends keywords: the keywords
    derived from the title alone are a prefix of the keywords derived
    from the title and the meta description. *)
Theorem title_keywords_come_first (page : ParsedPage) (t : str) (t0 : option str) (body : str) :
  _derive_keywords {| title := t0; meta_description := None; body_text := body |} t
    `prefix_of` _derive_keywords page t.
Proof.
  rewrite !derive_keywords_eq. simpl opt_str. rewrite tokenize_nil, app_nil_r.
  rewrite filter_app, dedup_first_app, take_app.
  by eexists.
Qed.

Lemma split_go_infix s : forall cur t,
  t ∈ split_go cur s -> exists a b, rev cur ++ s = a ++ t ++ b.
Proof.
  induction s as [|c r IH]; intros cur t Ht; simpl in Ht.
  - destruct cur as [|x cur']; [by apply elem_of_nil in Ht|].
    apply list_elem_of_singleton in Ht as ->. exists [], []. by rewrite !app_nil_r.
  - destruct (is_space c).
    + destruct cur as [|x cur'].
      * apply IH in Ht as (a & b & E). simpl in E. exists (c :: a), b. simpl. by rewrite E.
      * apply elem_of_cons in Ht as [->|Ht].
        -- by exists [], (c :: r).
        -- apply IH in Ht as (a & b & E). simpl in E.
           exists (rev (x :: cur') ++ c :: a), b. rewrite E. by rewrite <- !app_assoc.
    + apply IH in Ht as (a & b & E). exists a, b. rewrite <- E. simpl.
      by rewrite <- app_assoc.
Qed.

Lemma blank_out_no_space_id s : no_space (map blank_out s) -> map blank_out s = s.
Proof.
  induction s as [|c s IH]; [done|]. simpl. intros H. inversion_clear H as [|? ? Hc Hs].
  rewrite IH by done. f_equal. unfold blank_out in *.
  destruct (is_punct c); [done|done].
Qed.

Lemma token_occurs text k : k ∈ _tokenize_ko_simple text -> contains k text = true.
Proof.
  intros Hk. pose proof (tokenize_tokens text) as Htok.
  rewrite Forall_forall in Htok. destruct (Htok k Hk) as [[_ Hns] _].
  rewrite tokenize_split in Hk. apply split_go_infix in Hk as (a & b & E).
  simpl in E. apply map_eq_app in E as (a' & r & -> & Ha & E).
  apply map_eq_app in E as (k' & b' & -> & Hk' & Hb).
  rewrite <- Hk' in Hns. rewrite (blank_out_no_space_id _ Hns) in Hk'. subst k'.
  apply occurs_r, occurs_l, contains_refl.
Qed.

(** X11. Every derived keyword is a piece of the input: it occurs, as
    it is, in the title or in the meta description. *)
Theorem derived_keyword_occurs (page : ParsedPage) (t k : str) :
  k ∈ _derive_keywords page t ->
  contains k t = true \/ contains k (opt_str (meta_description page)) = true.
Proof.
  rewrite derive_keywords_eq. intros Hk.
  apply (sublist_subseteq _ _ (sublist_take _ _)) in Hk.
  apply dedup_first_subseteq, list_elem_of_filter in Hk as [_ Hk].
  apply elem_of_app in Hk as [Hk|Hk]; [left|right]; by apply token_occurs.
Qed.

Lemma derived_keyword_occurs_witness :
  contains (lit "desc") (lit "Test") = true \/ contains (lit "desc") (lit "a desc.") = true.
Proof.
  apply (derived_keyword_occurs
           {| title := None; meta_description := Some (lit "a desc."); body_text := [] |}
           (lit "Test") (lit "desc")).
  apply list_elem_of_In. vm_compute. right. left. reflexivity.
Defined.

(** * Further properties of the controller *)

Section ControllerExtras.
Context `{C : Collaborators}.

Lemma generate_title_parsed source tr page cs :
  parse_html source = (tr, inr page) ->
  _generate_title page cs
    = ([ETitle (title_call page cs)], inr (title_generate (title_call page cs))).
Proof.
  intros Hp. unfold _generate_title, title_call. rewrite (parse_html_title _ _ _ Hp).
  by destruct (title page) as [[|c t]|].
Qed.

Lemma analyze_comments_trace cmts :
  trace (_analyze_comments cmts) = [] \/ trace (_analyze_comments cmts) = [ESummarize cmts].
Proof.
  destruct cmts as [|c0 r]; [by left|]. right.
  unfold _analyze_comments. rewrite bind_emit. simpl.
  destruct (summarize (c0 :: r)) as [cs|d|v]; try done.
  unfold lift.
  destruct (py_list _) as [?|?]; [done|]. simpl.
  destruct (py_list _) as [?|?]; [done|]. simpl.
  destruct (py_list _) as [?|?]; [done|]. simpl.
  by destruct (as_tone _) as [?|?].
Qed.

(** The three ways a run can end after its guard. *)
Lemma run_cases inp :
  negb (opt_truthy (url inp)) && negb (opt_truthy (html inp)) = false ->
  (exists tr e, parse_html (source_of inp) = (tr, inl e) /\
     run inp = (EParseHtml (source_of inp) :: tr, inl e)) \/
  (exists tr page tr' e,
     parse_html (source_of inp) = (tr, inr page) /\
     _analyze_comments (default [] (comments inp)) = (tr', inl e) /\
     run inp = (EParseHtml (source_of inp) :: tr ++ tr', inl e)) \/
  (exists tr page tr' cs,
     parse_html (source_of inp) = (tr, inr page) /\
     _analyze_comments (default [] (comments inp)) = (tr', inr cs) /\
     run inp = (EParseHtml (source_of inp) :: tr ++ tr' ++ [ETitle (title_call page cs)],
                inr (output_of page cs))).
Proof.
  intros Hg. destruct (parse_html (source_of inp)) as [tr [e|page]] eqn:Hp.
  - left. exists tr, e. split; [done|]. by apply run_parse_error.
  - right. rewrite (run_after_parse _ _ _ Hg Hp).
    destruct (_analyze_comments (default [] (comments inp))) as [tr' [e|cs]] eqn:Ha.
    + left. by exists tr, page, tr', e.
    + right. exists tr, page, tr', cs. split; [done|]. split; [done|].
      simpl. by rewrite (generate_title_parsed _ _ _ cs Hp).
Qed.

(** X12. No retries and a fixed order: in every run each collaborator
    is called at most once, and the calls come in the order
    [parse_html], fetch, comment analyzer, title generator. *)
Theorem run_call_order (inp : PipelineInput) :
  exists c,
    trace (run inp) `sublist_of`
      [EParseHtml (source_of inp); EFetch (source_of inp);
       ESummarize (default [] (comments inp)); ETitle c].
Proof.
  set (dummy := title_call {| title := None; meta_description := None; body_text := [] |}
                           empty_summary).
  destruct (negb (opt_truthy (url inp)) && negb (opt_truthy (html inp))) eqn:Hg.
  { exists dummy. unfold run. rewrite Hg. apply sublist_nil_l. }
  pose proof (parse_html_trace (source_of inp)) as Hpt.
  pose proof (analyze_comments_trace (default [] (comments inp))) as Hat.
  destruct (run_cases inp Hg) as [(tr & e & Hp & ->)|[(tr & page & tr' & e & Hp & Ha & ->)
                                                     |(tr & page & tr' & cs & Hp & Ha & ->)]];
    rewrite Hp in Hpt; rewrite ?Ha in Hat; simpl in Hpt, Hat.
  - exists dummy. destruct Hpt as [-> | ->]; simpl;
      repeat first [apply sublist_nil_l | apply sublist_skip | apply sublist_cons].
  - exists dummy. destruct Hpt as [-> | ->], Hat as [-> | ->]; simpl;
      repeat first [apply sublist_nil_l | apply sublist_skip | apply sublist_cons].
  - exists (title_call page cs). destruct Hpt as [-> | ->], Hat as [-> | ->]; simpl;
      repeat first [apply sublist_nil_l | apply sublist_skip | apply sublist_cons].
Qed.

(** X13. A failed fetch ends the run: when the source is a URL and
    the request raises, the run raises the same exception right after
    the one fetch, and neither the comment analyzer nor the title
    generator is called. *)
Theorem run_fetch_failure (inp : PipelineInput) (e : PyError) :
  opt_truthy (url inp) = true \/ opt_truthy (html inp) = true ->
  ~ is_blank (source_of inp) ->
  _is_url (source_of inp) = inr true ->
  http_get (source_of inp) = inl e ->
  run inp = ([EParseHtml (source_of inp); EFetch (source_of inp)], inl e).
Proof.
  intros Hg%guard_false_iff Hnb Hurl Hget.
  apply run_parse_error; [done|]. unfold parse_html.
  apply truthy_strip_iff in Hnb.
  assert (truthy (source_of inp) = true) as Hs.
  { destruct (source_of inp); [|done]. by vm_compute in Hnb. }
  rewrite Hs, Hnb, Hurl. simpl. unfold _fetch_html, lift. by rewrite Hget.
Qed.

(** X14. Markup never touches the network: for a source that is not
    blank and that [urlparse] does not take for a URL, [parse_html]
    makes no fetch and hands that very text to the HTML parser.  It
    raises what the parser raises on it, and when the parser accepts
    it the page is the one built from the parsed source. *)
Theorem parse_html_markup (source : str) :
  ~ is_blank source -> _is_url source = inr false ->
  parse_html source =
    ([], match make_soup source with
         | inl e => inl e
         | inr soup => inr (page_of_soup soup)
         end).
Proof.
  intros Hnb Hurl. apply truthy_strip_iff in Hnb.
  assert (truthy source = true) as Hs.
  { destruct source; [|done]. by vm_compute in Hnb. }
  unfold parse_html. rewrite Hs, Hnb, Hurl. simpl.
  by destruct (make_soup source).
Qed.

(** X15. Parsed pages are tidy: the title and the meta description of
    a page that [parse_html] returns carry no surrounding whitespace. *)
Theorem parse_html_strips (source : str) (tr : list Event) (page : ParsedPage) :
  parse_html source = (tr, inr page) ->
  (forall t, title page = Some t -> strip t = t) /\
  (forall m, meta_description page = Some m -> strip m = m).
Proof.
  intros [soup ->]%parse_html_page. unfold page_of_soup, _extract_meta_description. simpl.
  split.
  - intros t. destruct (soup_title soup) as [[s|]|]; try done.
    destruct (truthy s); [|done]. intros [= <-]. apply strip_idem.
  - intros m. destruct (soup_meta soup) as [[s|]|]; try done.
    destruct (truthy s); [|done]. intros [= <-]. apply strip_idem.
Qed.

Lemma run_success_inv inp out :
  outcome (run inp) = inr out ->
  exists tr page tr' cs,
    parse_html (source_of inp) = (tr, inr page) /\
    _analyze_comments (default [] (comments inp)) = (tr', inr cs) /\
    out = output_of page cs.
Proof.
  intros Ho.
  destruct (negb (opt_truthy (url inp)) && negb (opt_truthy (html inp))) eqn:Hg.
  { unfold run in Ho. by rewrite Hg in Ho. }
  destruct (run_cases inp Hg) as [(tr & e & Hp & Hr)|[(tr & page & tr' & e & Hp & Ha & Hr)
                                                     |(tr & page & tr' & cs & Hp & Ha & Hr)]];
    rewrite Hr in Ho; simpl in Ho; try done.
  injection Ho as <-. by exists tr, page, tr', cs.
Qed.

Lemma no_space_single_line k : no_space k -> single_line k.
Proof.
  induction 1 as [|c k Hc _ IH]; [done|]. unfold single_line in *.
  change (contains [LF] (c :: k)) with (((LF =? c)%N && true) || contains [LF] k).
  rewrite IH, andb_true_r, orb_false_r.
  destruct (N.eqb_spec LF c) as [<-|]; [by vm_compute in Hc | done].
Qed.

(** X17. In the pipeline the post keeps its four headings whatever the
    page says: for every run that returns, if the generated title and
    the strings of the comment summary are free of line feeds, the
    lines of the post that begin with [## ] are exactly the four
    section headings. The derived keywords never add one. *)
Theorem run_post_headings (inp : PipelineInput) (out : PipelineOutput) :
  outcome (run inp) = inr out ->
  single_line (out_title out) ->
  Forall single_line (summary_strings (comment_summary out)) ->
  heading_lines (blog_post out)
    = [Lit.h2 ++ Lit.sec_intro; Lit.h2 ++ Lit.sec_problem;
       Lit.h2 ++ Lit.sec_info; Lit.h2 ++ Lit.sec_wrap].
Proof.
  intros (tr & page & tr' & cs & _ & _ & ->)%run_success_inv Ht Hcs.
  simpl in *. rewrite generate_heading_lines; [done|done| |done].
  eapply Forall_impl; [apply derive_keywords_tokens|].
  intros k [[_ Hk] _]. by apply no_space_single_line.
Qed.

(** X18. The URL wins: when a URL is given, the markup field is not
    looked at, and the run is the run without it. *)
Theorem run_url_precedence (inp : PipelineInput) (h : option str) :
  opt_truthy (url inp) = true -> run (with_html inp h) = run inp.
Proof.
  intros Hu. unfold run, source_of, with_html. simpl. by rewrite Hu.
Qed.

Lemma analyze_typed_dict cmts d :
  cmts <> [] -> summarize cmts = ADict d -> dict_well_typed d ->
  _analyze_comments cmts =
    ([ESummarize cmts],
     inr {| highlights := dict_list d Key.highlights;
            pain_points := dict_list d Key.pain_points;
            wishes := dict_list d Key.wishes;
            tone := dict_tone d |}).
Proof.
  intros Hne Hs (Hh & Hp & Hw & Ht). destruct cmts as [|c0 r]; [done|].
  unfold _analyze_comments. rewrite Hs.
  unfold list_entry, tone_entry, dict_list, dict_tone in *.
  destruct (d !! Key.highlights) as [[]|]; try done;
    destruct (d !! Key.pain_points) as [[]|]; try done;
    destruct (d !! Key.wishes) as [[]|]; try done;
    destruct (d !! Key.tone) as [[]|]; done.
Qed.

(** X19. Keys other than the four field names are ignored: adding an
    entry under any other key to a well-typed [dict] does not change
    the comment summary that comes out. *)
Theorem analyze_ignores_other_keys (cmts : list str) (d : gmap (list N) PyVal)
    (k : str) (v : PyVal) :
  cmts <> [] -> k ∉ summary_keys -> dict_well_typed d ->
  summarize cmts = ADict (<[k := v]> d) ->
  _analyze_comments cmts =
    ([ESummarize cmts],
     inr {| highlights := dict_list d Key.highlights;
            pain_points := dict_list d Key.pain_points;
            wishes := dict_list d Key.wishes;
            tone := dict_tone d |}).
Proof.
  intros Hne Hk Hd Hs.
  assert (forall key, key ∈ summary_keys -> (<[k := v]> d) !! key = d !! key) as Hl.
  { intros key Hkey. apply lookup_insert_ne. by intros ->. }
  pose proof (Hl Key.highlights ltac:(unfold summary_keys; set_solver)) as E1.
  pose proof (Hl Key.pain_points ltac:(unfold summary_keys; set_solver)) as E2.
  pose proof (Hl Key.wishes ltac:(unfold summary_keys; set_solver)) as E3.
  pose proof (Hl Key.tone ltac:(unfold summary_keys; set_solver)) as E4.
  rewrite (analyze_typed_dict _ _ Hne Hs).
  - unfold dict_list, dict_tone. by rewrite E1, E2, E3, E4.
  - unfold dict_well_typed, list_entry, tone_entry in *. by rewrite E1, E2, E3, E4.
Qed.

(** X20. A [dict] whose entry for highlights, pain points or wishes is
    [None] or a number cannot be converted: the analysis raises
    [TypeError], after the one call of the analyzer. *)
Theorem analyze_rejects_bad_sequence (cmts : list str) (d : gmap (list N) PyVal) (key : str) :
  cmts <> [] -> summarize cmts = ADict d ->
  key ∈ [Key.highlights; Key.pain_points; Key.wishes] ->
  d !! key = Some VNone \/ (exists z, d !! key = Some (VInt z)) ->
  _analyze_comments cmts = ([ESummarize cmts], inl TypeError).
Proof.
  intros Hne Hs Hkey Hbad. destruct cmts as [|c0 r]; [done|].
  unfold _analyze_comments. rewrite Hs.
  assert (py_list (default (VList []) (d !! key)) = inl TypeError) as Hk
    by (destruct Hbad as [-> | [z ->]]; done).
  assert (forall v, py_list v = inl TypeError \/ exists l, py_list v = inr l) as Hcases
    by (intros [| | |]; simpl; eauto).
  rewrite !elem_of_cons in Hkey. destruct Hkey as [-> | [-> | [-> | Hkey]]];
    [| | |by apply elem_of_nil in Hkey].
  - by rewrite Hk.
  - destruct (Hcases (default (VList []) (d !! Key.highlights))) as [-> | [l ->]]; [done|].
    by rewrite Hk.
  - destruct (Hcases (default (VList []) (d !! Key.highlights))) as [-> | [l ->]]; [done|].
    destruct (Hcases (default (VList []) (d !! Key.pain_points))) as [-> | [l' ->]]; [done|].
    by rewrite Hk.
Qed.

(** X21. A string stored under the highlights key is taken apart:
    [list] turns it into the list of its characters, one string
    each. *)
Theorem analyze_splits_text_entry (cmts : list str) (d : gmap (list N) PyVal) (s : str) :
  cmts <> [] -> summarize cmts = ADict d ->
  d !! Key.highlights = Some (VStr s) ->
  list_entry d Key.pain_points -> list_entry d Key.wishes -> tone_entry d ->
  _analyze_comments cmts =
    ([ESummarize cmts],
     inr {| highlights := map (fun c => [c]) s;
            pain_points := dict_list d Key.pain_points;
            wishes := dict_list d Key.wishes;
            tone := dict_tone d |}).
Proof.
  intros Hne Hs Hh Hp Hw Ht. destruct cmts as [|c0 r]; [done|].
  unfold _analyze_comments. rewrite Hs, Hh.
  unfold list_entry, tone_entry, dict_list, dict_tone in *.
  destruct (d !! Key.pain_points) as [[]|]; try done;
    destruct (d !! Key.wishes) as [[]|]; try done;
    destruct (d !! Key.tone) as [[]|]; done.
Qed.

End ControllerExtras.

Lemma run_fetch_failure_witness :
  run (C := sample_collaborators (ASummary sample_summary))
      (url_input (lit "https://example.com/post") (Some [lit "great tips"]))
  = ([EParseHtml (lit "https://example.com/post"); EFetch (lit "https://example.com/post")],
     inl RequestException).
Proof.
  apply (run_fetch_failure (C := sample_collaborators (ASummary sample_summary))
           (url_input (lit "https://example.com/post") (Some [lit "great tips"]))).
  - left. reflexivity.
  - intros H. inversion H as [|? ? Hc _]. by vm_compute in Hc.
  - reflexivity.
  - reflexivity.
Defined.

Lemma parse_html_markup_witness :
  parse_html (C := sample_collaborators (AOther VNone)) (lit "<title>Test</title>")
    = ([], inr sample_page) /\
  parse_html (C := rejecting_collaborators) (lit "<![x]>") = ([], inl ParserRejectedMarkup).
Proof.
  split.
  - apply (parse_html_markup (C := sample_collaborators (AOther VNone))
             (lit "<title>Test</title>")).
    + intros H. inversion H as [|? ? Hc _]. by vm_compute in Hc.
    + reflexivity.
  - apply (parse_html_markup (C := rejecting_collaborators) (lit "<![x]>")).
    + intros H. inversion H as [|? ? Hc _]. by vm_compute in Hc.
    + reflexivity.
Defined.

Lemma parse_html_strips_witness :
  (forall t, title sample_page = Some t -> strip t = t) /\
  (forall m, meta_description sample_page = Some m -> strip m = m).
Proof.
  apply (parse_html_strips (C := sample_collaborators (AOther VNone))
           (lit "<title>Test</title>") [] sample_page eq_refl).
Defined.

Lemma run_post_headings_witness :
  heading_lines
    (blog_post (output_of (C := sample_collaborators (ASummary sample_summary))
                          sample_page sample_summary))
  = [Lit.h2 ++ Lit.sec_intro; Lit.h2 ++ Lit.sec_problem;
     Lit.h2 ++ Lit.sec_info; Lit.h2 ++ Lit.sec_wrap].
Proof.
  apply (run_post_headings (C := sample_collaborators (ASummary sample_summary))
           (markup_input (Some [lit "great tips"]))).
  - reflexivity.
  - reflexivity.
  - repeat constructor.
Defined.

Lemma run_url_precedence_witness :
  run (C := sample_collaborators (AOther VNone))
      (with_html (url_input (lit "https://example.com/post") None) (Some (lit "<p>x</p>")))
  = run (C := sample_collaborators (AOther VNone))
        (url_input (lit "https://example.com/post") None).
Proof.
  apply (run_url_precedence (C := sample_collaborators (AOther VNone))
           (url_input (lit "https://example.com/post") None) (Some (lit "<p>x</p>"))).
  reflexivity.
Defined.

Lemma analyze_ignores_other_keys_witness :
  _analyze_comments (C := sample_collaborators (ADict extra_key_dict)) [lit "great tips"]
  = ([ESummarize [lit "great tips"]],
     inr {| highlights := [lit "great tips"]; pain_points := []; wishes := [];
            tone := None |}).
Proof.
  rewrite (analyze_ignores_other_keys (C := sample_collaborators (ADict extra_key_dict))
             [lit "great tips"] sample_dict (lit "score") (VInt 3)).
  - reflexivity.
  - discriminate.
  - unfold summary_keys. intros H. apply list_elem_of_In in H. vm_compute in H.
    repeat destruct H as [H|H]; try discriminate H. exact H.
  - repeat split.
  - reflexivity.
Defined.

Lemma analyze_rejects_bad_sequence_witness :
  _analyze_comments (C := sample_collaborators (ADict none_highlights_dict)) [lit "great tips"]
  = ([ESummarize [lit "great tips"]], inl TypeError).
Proof.
  apply (analyze_rejects_bad_sequence
           (C := sample_collaborators (ADict none_highlights_dict))
           [lit "great tips"] none_highlights_dict Key.highlights).
  - discriminate.
  - reflexivity.
  - apply list_elem_of_In. left. reflexivity.
  - left. reflexivity.
Defined.

Lemma analyze_splits_text_entry_witness :
  _analyze_comments (C := sample_collaborators (ADict text_highlights_dict)) [lit "great tips"]
  = ([ESummarize [lit "great tips"]],
     inr {| highlights := [lit "o"; lit "k"]; pain_points := []; wishes := [];
            tone := None |}).
Proof.
  rewrite (analyze_splits_text_entry (C := sample_collaborators (ADict text_highlights_dict))
             [lit "great tips"] text_highlights_dict (lit "ok")).
  - reflexivity.
  - discriminate.
  - reflexivity.
  - reflexivity.
  - exact I.
  - exact I.
  - exact I.
Defined.

(** * The helpers around the pipeline *)

(** ** [splitlines] *)

Lemma is_linebreak_space c : is_linebreak c = true -> is_space c = true.
Proof.
  unfold is_linebreak, is_space. intros H.
  repeat (apply orb_prop in H as [H|H]);
    try (apply N.eqb_eq in H; subst c; reflexivity).
  apply andb_prop in H as [H1 H2]. apply N.leb_le in H1. apply N.leb_le in H2.
  assert ((28 <=? c)%N && (c <=? 32)%N = true) as ->.
  { apply andb_true_intro. split; apply N.leb_le; lia. }
  by rewrite orb_true_r.
Qed.

Lemma not_linebreak_lf_cr c :
  is_linebreak c = false -> (c =? LF)%N = false /\ (c =? CR)%N = false.
Proof.
  intros H. split; apply not_true_is_false; intros E; apply N.eqb_eq in E; subst c; done.
Qed.

Lemma splitlines_go_no_linebreak s : forall b cur,
  no_linebreak cur -> Forall no_linebreak (splitlines_go b cur s).
Proof.
  assert (forall cur : str, no_linebreak cur -> no_linebreak (rev cur)) as Hrev
    by (intros cur Hc; by apply Forall_rev).
  induction s as [|c r IH]; intros b cur Hcur; simpl.
  - destruct cur; repeat constructor. by apply Hrev.
  - destruct (c =? LF)%N.
    { destruct b; [by apply IH|]. constructor; [by apply Hrev | apply IH; constructor]. }
    destruct (c =? CR)%N.
    { constructor; [by apply Hrev | apply IH; constructor]. }
    destruct (is_linebreak c) eqn:E.
    + constructor; [by apply Hrev | apply IH; constructor].
    + apply IH. by constructor.
Qed.

Lemma splitlines_go_word w : forall cur rest,
  no_linebreak w ->
  splitlines_go false cur (w ++ rest) = splitlines_go false (rev w ++ cur) rest.
Proof.
  induction w as [|c w IH]; intros cur rest Hw; [done|].
  inversion_clear Hw as [|? ? Hc Hw']. destruct (not_linebreak_lf_cr c Hc) as [H1 H2].
  simpl. rewrite H1, H2, Hc, IH by done. by rewrite <- app_assoc.
Qed.

Lemma splitlines_go_join ls : forall cur,
  Forall (fun l => l <> [] /\ no_linebreak l) ls ->
  splitlines_go false cur (join [LF] ls) =
    match ls with
    | [] => match cur with [] => [] | _ => [rev cur] end
    | l :: ls' => (rev cur ++ l) :: ls'
    end.
Proof.
  induction ls as [|l ls IH]; intros cur Hls; [done|].
  inversion_clear Hls as [|? ? [Hne Hl] Hls'].
  destruct ls as [|l' ls'].
  - simpl join. rewrite <- (app_nil_r l) at 1. rewrite splitlines_go_word by done.
    pose proof (rev_app_nonempty l cur Hne) as Hn.
    simpl. destruct (rev l ++ cur) eqn:E; [done|].
    by rewrite <- E, rev_app_distr, rev_involutive.
  - change (join [LF] (l :: l' :: ls')) with (l ++ LF :: join [LF] (l' :: ls')).
    rewrite splitlines_go_word by done. simpl.
    rewrite rev_app_distr, rev_involutive. by rewrite IH.
Qed.

(** In a text with a character that is not whitespace, some line is
    not blank. *)
Lemma splitlines_go_not_blank s : forall b cur,
  Exists (fun c => is_space c = false) (cur ++ s) ->
  Exists (fun l => ~ is_blank l) (splitlines_go b cur s).
Proof.
  assert (forall cur : str, Exists (fun c => is_space c = false) cur -> ~ is_blank (rev cur))
    as Hflush.
  { intros cur Hex Hb. apply Exists_exists in Hex as (x & Hx & Hns).
    unfold is_blank in Hb. rewrite Forall_forall in Hb.
    rewrite (Hb x) in Hns; [done|].
    apply list_elem_of_In. apply -> in_rev. by apply list_elem_of_In. }
  assert (forall (c : char) cur r, is_space c = true ->
            Exists (fun c => is_space c = false) (cur ++ c :: r) ->
            Exists (fun c => is_space c = false) cur \/
            Exists (fun c => is_space c = false) r) as Hskip.
  { intros c cur r Hc Hex. apply Exists_app in Hex as [?|Hex]; [by left|].
    apply Exists_cons in Hex as [?|?]; [congruence | by right]. }
  induction s as [|c r IH]; intros b cur Hex; simpl.
  - rewrite app_nil_r in Hex. destruct cur as [|x cur'].
    + by apply Exists_nil in Hex.
    + constructor. by apply Hflush.
  - destruct (N.eqb_spec c LF) as [->|Hlf].
    { apply Hskip in Hex as [Hex|Hex]; [| |done].
      - destruct b; [apply IH, Exists_app; by left|].
        constructor. by apply Hflush.
      - destruct b; [apply IH, Exists_app; by right|].
        apply Exists_cons_tl, IH. done. }
    destruct (N.eqb_spec c CR) as [->|Hcr].
    { apply Hskip in Hex as [Hex|Hex]; [| |done].
      - constructor. by apply Hflush.
      - apply Exists_cons_tl, IH. done. }
    destruct (is_linebreak c) eqn:E.
    + apply Hskip in Hex as [Hex|Hex]; [| |by apply is_linebreak_space].
      * constructor. by apply Hflush.
      * apply Exists_cons_tl, IH. done.
    + apply IH. apply Exists_app in Hex as [Hex|Hex].
      * apply Exists_app. left. by apply Exists_cons_tl.
      * apply Exists_cons in Hex as [Hex|Hex].
        -- apply Exists_app. left. by apply Exists_cons_hd.
        -- apply Exists_app. by right.
Qed.

Lemma not_blank_exists s : ~ is_blank s -> Exists (fun c => is_space c = false) s.
Proof.
  induction s as [|c s IH]; intros H; [exfalso; apply H; constructor|].
  destruct (is_space c) eqn:E; [|by left].
  right. apply IH. intros Hb. apply H. by constructor.
Qed.

Lemma strip_Forall (P : char -> Prop) s : Forall P s -> Forall P (strip s).
Proof.
  intros H. unfold strip.
  destruct (lstrip_suffix s) as [a Ha]. destruct (rstrip_prefix (lstrip s)) as [w Hw].
  rewrite Ha in H. apply Forall_app in H as [_ H]. rewrite Hw in H.
  by apply Forall_app in H as [H _].
Qed.

(** ** [_parse_comments_arg] *)

(** X22. The comments argument yields no comment list exactly when it
    is absent, empty or whitespace only; whatever the JSON reader
    does. *)
Theorem parse_comments_arg_none (json_list : str -> option (list str)) (raw : option str) :
  _parse_comments_arg json_list raw = None <-> is_blank (default [] raw).
Proof.
  destruct raw as [s|]; [|split; [constructor | done]].
  unfold _parse_comments_arg. simpl default. rewrite <- strip_nil_iff.
  destruct (truthy s) eqn:Hs; simpl negb; cbv iota.
  - destruct (strip s) as [|x r] eqn:E; simpl truthy; simpl negb; cbv iota; [done|].
    split; [|done]. destruct (starts_with _ _); [destruct (json_list _)|]; done.
  - destruct s; [done | discriminate Hs].
Qed.

Lemma parse_comments_arg_none_witness :
  _parse_comments_arg no_json (Some (lit "   ")) = None.
Proof.
  apply (proj2 (parse_comments_arg_none no_json (Some (lit "   ")))).
  repeat constructor.
Defined.

(** X23. Read line by line (the argument does not start with a
    bracket, or it is no JSON list), the comments argument gives at
    least one comment, and every comment is a non-empty single line
    without surrounding whitespace. *)
Theorem parse_comments_arg_lines (json_list : str -> option (list str)) (raw : str)
    (l : list str) :
  starts_with [91%N] (strip raw) = false \/ json_list (strip raw) = None ->
  _parse_comments_arg json_list (Some raw) = Some l ->
  l <> [] /\
  Forall (fun cmt => cmt <> [] /\ strip cmt = cmt /\ no_linebreak cmt) l.
Proof.
  intros Hpath. unfold _parse_comments_arg.
  destruct (truthy raw); simpl negb; cbv iota; [|done].
  destruct (truthy (strip raw)) eqn:Hs; simpl negb; cbv iota; [|done].
  set (by_lines := map strip (filter (fun line => truthy (strip line) = true)
                                     (splitlines (strip raw)))).
  intros Hl. assert (l = by_lines) as ->.
  { destruct Hpath as [Hp | Hj]; [rewrite Hp in Hl; by injection Hl|].
    rewrite Hj in Hl. destruct (starts_with _ _); by injection Hl. }
  clear Hl Hpath. split.
  - assert (~ is_blank (strip raw)) as Hnb.
    { apply truthy_strip_iff. by rewrite strip_idem. }
    apply not_blank_exists in Hnb.
    pose proof (splitlines_go_not_blank (strip raw) false [] Hnb) as Hex.
    apply Exists_exists in Hex as (line & Hin & Hline).
    apply truthy_strip_iff in Hline.
    intros E. apply (f_equal (@length _)) in E. unfold by_lines in E.
    rewrite length_map in E. apply length_zero_iff_nil in E.
    assert (line ∈ filter (fun line => truthy (strip line) = true) (splitlines (strip raw)))
      as Hf by (apply list_elem_of_filter; by split).
    rewrite E in Hf. by apply elem_of_nil in Hf.
  - unfold by_lines. apply Forall_map, Forall_forall. intros line Hline.
    apply list_elem_of_filter in Hline as [Ht Hin]. simpl.
    split; [by destruct (strip line)|]. split; [apply strip_idem|].
    apply strip_Forall.
    pose proof (splitlines_go_no_linebreak (strip raw) false [] ltac:(constructor)) as Hall.
    rewrite Forall_forall in Hall. by apply Hall.
Qed.

Lemma parse_comments_arg_lines_witness :
  [lit "great tips"; lit "too long"] <> [] /\
  Forall (fun cmt => cmt <> [] /\ strip cmt = cmt /\ no_linebreak cmt)
         [lit "great tips"; lit "too long"].
Proof.
  apply (parse_comments_arg_lines no_json (lit " great tips

  too long ")).
  - left. reflexivity.
  - reflexivity.
Defined.

(** ** [_clean_body_text] *)

Lemma clean_lines_ok text :
  Forall (fun l => l <> [] /\ no_linebreak l)
         (filter (fun line : str => truthy line = true) (splitlines text)).
Proof.
  apply Forall_forall. intros l Hl. apply list_elem_of_filter in Hl as [Ht Hin].
  split; [by destruct l|].
  pose proof (splitlines_go_no_linebreak text false [] ltac:(constructor)) as Hall.
  rewrite Forall_forall in Hall. by apply Hall.
Qed.

(** X24. The cleaned body text has the non-empty lines of the
    extracted text as its lines, in order; so it has no empty line,
    cleaning it again changes nothing, and its only line boundaries
    are single line feeds. *)
Theorem clean_body_text_lines (text : str) :
  splitlines (_clean_body_text text)
    = filter (fun line => truthy line = true) (splitlines text) /\
  _clean_body_text (_clean_body_text text) = _clean_body_text text /\
  Forall (fun c => is_linebreak c = true -> c = LF) (_clean_body_text text).
Proof.
  pose proof (clean_lines_ok text) as Hok.
  assert (splitlines (_clean_body_text text)
          = filter (fun line => truthy line = true) (splitlines text)) as E.
  { unfold _clean_body_text at 1, splitlines at 1. rewrite splitlines_go_join by done.
    by destruct (filter _ _). }
  split; [exact E|]. split.
  - unfold _clean_body_text at 1. rewrite E.
    rewrite filter_all; [done|]. eapply Forall_impl; [exact Hok|].
    intros l [Hl _]. by destruct l.
  - clear E. unfold _clean_body_text. induction Hok as [|l r [_ Hl] _ IH]; [constructor|].
    assert (Forall (fun c => is_linebreak c = true -> c = LF) l) as Hl'.
    { eapply Forall_impl; [exact Hl|]. intros c Hc. by rewrite Hc. }
    destruct r as [|l' r']; [exact Hl'|].
    change (join [LF] (l :: l' :: r')) with (l ++ LF :: join [LF] (l' :: r')).
    apply Forall_app. split; [exact Hl'|]. constructor; [by intros _ | exact IH].
Qed.

Example clean_body_text_sample :
  _clean_body_text (lit "Title

first line" ++ [CR; LF] ++ lit "second" ++ [CR; CR] ++ lit "third
") = lit "Title
first line
second
third".
Proof. vm_compute. reflexivity. Qed.

Example parse_comments_arg_sample :
  _parse_comments_arg no_json (Some (lit "  a
b  
")) = Some [lit "a"; lit "b"] /\
  _parse_comments_arg no_json (Some (lit "   ")) = None /\
  _parse_comments_arg (fun _ => Some []) (Some (lit "[]")) = Some [].
Proof. vm_compute. repeat split. Qed.

(** * Chunks and paragraphs *)

Lemma keywords_for_section_cases g (kws : list str) (i : nat) :
  (0 < keywords_per_section g)%Z ->
  let n := Z.to_nat (keywords_per_section g) in
  _keywords_for_section g kws (Z.of_nat i) = take n (drop (i * n) kws) \/
  _keywords_for_section g kws (Z.of_nat i) = take n kws.
Proof.
  intros Hpos n. unfold _keywords_for_section.
  rewrite py_slice_nonneg by nia. rewrite py_slice_prefix by lia.
  replace (Z.to_nat (Z.of_nat i * keywords_per_section g + keywords_per_section g
                     - Z.of_nat i * keywords_per_section g)) with n by (unfold n; lia).
  replace (Z.to_nat (Z.of_nat i * keywords_per_section g)) with (i * n)
    by (unfold n; nia).
  fold n. destruct (take n (drop (i * n) kws)); [by right | by left].
Qed.

(** X25. With a positive chunk size, the paragraph of a section names
    every keyword assigned to it: the keyword phrase is the whole
    chunk joined by the connective, or the placeholder when the chunk
    is empty. *)
Theorem scatter_uses_whole_chunk (g : BlogPostGenerator) (kws : list str) (i : nat) :
  (0 < keywords_per_section g)%Z ->
  _scatter_keywords g (_keywords_for_section g kws (Z.of_nat i))
  = match _keywords_for_section g kws (Z.of_nat i) with
    | [] => Lit.ph_keyword
    | chunk => join Lit.wa_sp chunk
    end.
Proof.
  intros Hpos.
  assert (length (_keywords_for_section g kws (Z.of_nat i))
          <= Z.to_nat (keywords_per_section g)) as Hlen.
  { destruct (keywords_for_section_cases g kws i Hpos) as [-> | ->];
      rewrite length_take; lia. }
  unfold _scatter_keywords.
  destruct (_keywords_for_section g kws (Z.of_nat i)) as [|k r] eqn:E; [done|].
  rewrite py_slice_prefix by lia. by rewrite take_ge.
Qed.

Lemma scatter_uses_whole_chunk_witness :
  _scatter_keywords default_generator (_keywords_for_section default_generator nine_keywords 1)
  = lit "k3와 k4".
Proof.
  exact (scatter_uses_whole_chunk default_generator nine_keywords 1 eq_refl).
Defined.

(** X26. With chunk size 0 no section is assigned a keyword, whatever
    the keyword list, and every paragraph shows the keyword
    placeholder. *)
Theorem zero_chunk_size (g : BlogPostGenerator) (kws : list str) (i : Z) :
  keywords_per_section g = 0%Z ->
  _keywords_for_section g kws i = [] /\
  _scatter_keywords g (_keywords_for_section g kws i) = Lit.ph_keyword.
Proof.
  intros Hz.
  assert (_keywords_for_section g kws i = []) as E.
  { unfold _keywords_for_section. rewrite Hz, Z.mul_0_r, Z.add_0_r.
    rewrite py_slice_nonneg by lia. by rewrite take_0. }
  by rewrite E.
Qed.

Lemma zero_chunk_size_witness :
  _keywords_for_section {| keywords_per_section := 0 |} nine_keywords 2 = [].
Proof.
  apply (proj1 (zero_chunk_size {| keywords_per_section := 0 |} nine_keywords 2 eq_refl)).
Defined.

(** * Fetching *)

Section Fetching.
Context `{C : Collaborators}.

(** X27. A URL is fetched exactly once: for a source that is a URL
    whose request succeeds, [parse_html] makes the one fetch and hands
    the fetched markup, not the source text, to the HTML parser.  It
    raises what the parser raises on the fetched markup, and when the
    parser accepts it the page is the one built from it. *)
Theorem parse_html_url (source fetched : str) :
  ~ is_blank source -> _is_url source = inr true -> http_get source = inr fetched ->
  parse_html source =
    ([EFetch source], match make_soup fetched with
                      | inl e => inl e
                      | inr soup => inr (page_of_soup soup)
                      end).
Proof.
  intros Hnb Hurl Hget. apply truthy_strip_iff in Hnb.
  assert (truthy source = true) as Hs.
  { destruct source; [|done]. by vm_compute in Hnb. }
  unfold parse_html. rewrite Hs, Hnb, Hurl. simpl.
  unfold _fetch_html, lift. rewrite Hget. simpl.
  by destruct (make_soup fetched).
Qed.

End Fetching.

Lemma parse_html_url_witness :
  parse_html (C := fetching_collaborators) (lit "https://example.com/post")
    = ([EFetch (lit "https://example.com/post")], inr sample_page).
Proof.
  apply (parse_html_url (C := fetching_collaborators) (lit "https://example.com/post")
           (lit "<title>Test</title>")).
  - intros H. inversion H as [|? ? Hc _]. by vm_compute in Hc.
  - reflexivity.
  - reflexivity.
Defined.

(** What the libraries refuse ends the run inside [parse_html]: a
    markup the parser rejects, and a source on which [urlparse]
    raises. *)
Example run_rejected_markup_sample :
  run (C := rejecting_collaborators)
      {| url := None; html := Some (lit "<![x]>"); youtube_video_id := None;
         comments := Some [lit "great tips"] |}
  = ([EParseHtml (lit "<![x]>")], inl ParserRejectedMarkup).
Proof. vm_compute. reflexivity. Qed.

Example run_rejected_source_sample :
  run (C := rejecting_collaborators)
      {| url := None; html := Some (lit "//[x"); youtube_video_id := None;
         comments := Some [lit "great tips"] |}
  = ([EParseHtml (lit "//[x")], inl ValueError).
Proof. vm_compute. reflexivity. Qed.
